(** * efflux-tracker: application of module parameter automation

    A shallow embedding of [src/services/audio/module-automation.js] (the
    dispatcher [applyModuleParamChange], its six appliers and the scheduling
    primitive [scheduleParameterChange]) and of [toHex] and [fromHex] from
    the number utilities, followed by the properties the specification
    states about them and by further properties read off the code.

    JavaScript numbers are IEEE-754 binary64 values: the program is read on
    [Binary64], Rocq's executable [SpecFloat] specification of IEEE-754 with
    53 bits of precision.  The program text is embedded over an interface
    [JsNumber] of the arithmetic the source uses, so that what does not
    depend on rounding is proved once, for every number system.  [Exact],
    the rationals, is not the arithmetic of the program: it only serves to
    show which figures unrounded arithmetic would give.
    The Web Audio objects the code drives ([AudioParam] and the nodes that
    carry them) belong to the host: an [AudioParam] is modelled by its current
    [value] reading and the sequence of automation calls issued on it. *)

From Stdlib Require Import ZArith QArith Qcanon Bool List Lia.
From Stdlib Require Import Ascii String.
From Stdlib Require Import Floats.SpecFloat.
Import ListNotations.

Set Implicit Arguments.

(** ** Numbers *)

(** What [Math.round] returns: an integral number, or a value that is not
    finite.  The sign of a zero is not kept: [toString] prints both zeros
    alike. *)
Inductive Rounded :=
| RNaN
| RInfinity (negative : bool)
| RInteger (z : Z).

(** The arithmetic of the source: integer literals, [+ - * /], unary minus,
    [>=] and [Math.round]. *)
Class JsNumber := {
  num : Type;
  lit : Z -> num;
  add : num -> num -> num;
  sub : num -> num -> num;
  mul : num -> num -> num;
  div : num -> num -> num;
  neg : num -> num;
  geb : num -> num -> bool;
  Math_round : num -> Rounded
}.

Declare Scope js_scope.
Delimit Scope js_scope with js.
Infix "+" := add : js_scope.
Infix "-" := sub : js_scope.
Infix "*" := mul : js_scope.
Infix "/" := div : js_scope.
Notation "- x" := (neg x) : js_scope.
Infix ">=?" := geb (at level 70, no associativity) : js_scope.

(** *** IEEE-754 binary64 *)

Module Binary64.

Definition prec : Z := 53.
Definition emax : Z := 1024.

Definition of_Z (z : Z) : spec_float := binary_normalize prec emax z 0 false.

(** [x >= y]: false as soon as an operand is NaN. *)
Definition ge (x y : spec_float) : bool := SFleb y x.

(** [Math.round x]: the integer closest to [x], a tie going towards
    +Infinity, that is [floor (x + 1/2)] computed without rounding. *)
Definition round (x : spec_float) : Rounded :=
  match x with
  | S754_nan => RNaN
  | S754_infinity s => RInfinity s
  | S754_zero _ => RInteger 0
  | S754_finite s m e =>
      let sm := if s then Z.neg m else Z.pos m in
      match e with
      | Z.neg p => let d := Z.pow 2 (Z.pos p) in
                   RInteger (Z.div (2 * sm + d) (2 * d))
      | _ => RInteger (sm * Z.pow 2 e)
      end
  end.

#[export] Instance number : JsNumber := {|
  num := spec_float;
  lit := of_Z;
  add := SFadd prec emax;
  sub := SFsub prec emax;
  mul := SFmul prec emax;
  div := SFdiv prec emax;
  neg := SFopp;
  geb := ge;
  Math_round := round
|}.

(** [x == y] of the language on doubles: the two zeros are equal. *)
Definition eqb (x y : spec_float) : bool := SFeqb x y.

End Binary64.

(** *** Unrounded rationals, for comparison only *)

Module Exact.

Definition of_Z (z : Z) : Qc := Q2Qc (inject_Z z).

Definition ge (x y : Qc) : bool := Qle_bool y x.

Definition round (x : Qc) : Rounded :=
  RInteger (Z.div (2 * Qnum x + Z.pos (Qden x)) (2 * Z.pos (Qden x))).

#[export] Instance number : JsNumber := {|
  num := Qc;
  lit := of_Z;
  add := Qcplus;
  sub := Qcminus;
  mul := Qcmult;
  div := Qcdiv;
  neg := Qcopp;
  geb := ge;
  Math_round := round
|}.

End Exact.

(** ** Strings of hexadecimal digits *)

Open Scope string_scope.

(** The digit of a value below sixteen, in lower case as [toString(16)]
    prints it. *)
Definition hexDigit (d : Z) : ascii :=
  match d with
  | 0 => "0" | 1 => "1" | 2 => "2" | 3 => "3" | 4 => "4" | 5 => "5"
  | 6 => "6" | 7 => "7" | 8 => "8" | 9 => "9" | 10 => "a" | 11 => "b"
  | 12 => "c" | 13 => "d" | 14 => "e" | _ => "f"
  end%Z%char.

(** The digits of [n], most significant first, in front of [acc]. *)
Fixpoint hexDigits (fuel : nat) (n : Z) (acc : string) : string :=
  match fuel with
  | O => String (hexDigit n) acc
  | S fuel' =>
      if (n <? 16)%Z then String (hexDigit n) acc
      else hexDigits fuel' (n / 16)%Z (String (hexDigit (n mod 16)%Z) acc)
  end.

Definition hexOfNat (n : Z) : string := hexDigits (Z.to_nat (Z.log2 n)) n "".

(** [x.toString(16)] for a result of [Math.round]. *)
Definition toString16 (x : Rounded) : string :=
  match x with
  | RNaN => "NaN"
  | RInfinity false => "Infinity"
  | RInfinity true => "-Infinity"
  | RInteger (Z.neg p) => "-" ++ hexOfNat (Z.pos p)
  | RInteger z => hexOfNat z
  end.

(** The value of a hexadecimal digit, in either case. *)
Definition digitValue (c : ascii) : option Z :=
  let n := Z.of_N (N_of_ascii c) in
  if ((48 <=? n) && (n <=? 57))%Z then Some (n - 48)%Z
  else if ((97 <=? n) && (n <=? 102))%Z then Some (n - 87)%Z
  else if ((65 <=? n) && (n <=? 70))%Z then Some (n - 55)%Z
  else None.

(** The longest run of digits at the head of [s], read from [acc]; the flag
    tells whether a digit was seen. *)
Fixpoint parseDigits (s : string) (seen : bool) (acc : Z) : bool * Z :=
  match s with
  | EmptyString => (seen, acc)
  | String c s' =>
      match digitValue c with
      | Some d => parseDigits s' true (16 * acc + d)%Z
      | None => (seen, acc)
      end
  end.

(** [parseInt(s, 16)] on a string without leading blanks: an optional sign,
    an optional [0x] or [0X], then the longest run of hexadecimal digits;
    [None] is NaN, the result when there is no digit. *)
Definition parseInt16 (s : string) : option Z :=
  let '(negative, s1) :=
    match s with
    | String "-" r => (true, r)
    | String "+" r => (false, r)
    | _ => (false, s)
    end in
  let s2 :=
    match s1 with
    | String "0" (String "x" r) => r
    | String "0" (String "X" r) => r
    | _ => s1
    end in
  match parseDigits s2 false 0 with
  | (true, v) => Some (if negative then (- v)%Z else v)
  | (false, _) => None
  end.

(** ** The number utilities: [toHex] *)

Section NumberUtil.

Context {N : JsNumber}.
Local Open Scope js_scope.

(** [const RESOLUTION = 255 / 100] *)
Definition RESOLUTION : num := lit 255 / lit 100.

(** [toHex( value )] *)
Definition toHex (value : num) : string :=
  let hex := toString16 (Math_round (value * RESOLUTION)) in
  if Nat.eqb (String.length hex) 1 then "0" ++ hex else hex.

End NumberUtil.

(** ** The data model *)

(** The tags of [definitions/automatable-parameters]; [OTHER] stands for any
    other string found in [audioEvent.mp.module]. *)
Inductive ModuleTag :=
| VOLUME | PAN_LEFT | PAN_RIGHT | PITCH_UP | PITCH_DOWN
| FILTER_ENABLED | FILTER_FREQ | FILTER_Q
| FILTER_LFO_ENABLED | FILTER_LFO_SPEED | FILTER_LFO_DEPTH
| DELAY_ENABLED | DELAY_TIME | DELAY_FEEDBACK | DELAY_CUTOFF | DELAY_OFFSET
| EXTERNAL_EVENT
| OTHER (name : string).

(** The host objects handed over to collaborators are known by a name only. *)
Definition OutputNode := nat.
Definition Callback := nat.

Section DataModel.

Context {N : JsNumber}.

(** A call of one of the three automation methods of an [AudioParam]. *)
Inductive ParamCall :=
| CancelScheduledValues (startTime : num)
| SetValueAtTime (v : num) (startTime : num)
| LinearRampToValueAtTime (v : num) (endTime : num).

(** An [AudioParam]: what [param.value] reads, and the calls received so
    far, oldest first.  The host moves [param_value] as it renders; a call
    only queues. *)
Record AudioParam := {
  param_value : num;
  automation : list ParamCall
}.

(** [audioEvent.mp] and [audioEvent.seq]. *)
Record ModuleParam := { module : ModuleTag; value : num; glide : bool }.
Record SeqData := { mpLength : num }.
Record AudioEvent := { mp : ModuleParam; seq : SeqData }.

(** The signal generator of a voice: the two classes [applyPitchShift]
    tests with [instanceof], each with its rate control, and any other
    object. *)
Inductive Generator :=
| OscillatorNode (frequency : AudioParam)
| AudioBufferSourceNode (playbackRate : AudioParam)
| OtherNode.

(** A voice: [voice.generator], [voice.frequency], [voice.gain.gain] and
    the [voice.gliding] flag. *)
Record Voice := {
  generator : Generator;
  frequency : num;
  gain_gain : AudioParam;
  gliding : bool
}.

(** [modules.filter]: the flag, [filter.frequency], [filter.Q],
    [lfo.frequency] and [lfoAmp.gain]. *)
Record FilterModule := {
  filterEnabled : bool;
  filter_frequency : AudioParam;
  filter_Q : AudioParam;
  lfo_frequency : AudioParam;
  lfoAmp_gain : AudioParam
}.

(** [modules.delay]: the flag and the four fields of [modules.delay.delay]. *)
Record DelayModule := {
  delayEnabled : bool;
  delay_delay : num;
  delay_feedback : num;
  delay_cutoff : num;
  delay_offset : num
}.

(** [modules]: [panner.pan], [filter] and [delay]. *)
Record Modules := {
  panner_pan : AudioParam;
  filter : FilterModule;
  delay : DelayModule
}.

(** [instrument]: only [instrument.filter.lfoType] is touched. *)
Record Instrument := { filter_lfoType : num }.

(** The constants of [Config] the appliers read; their values are not among
    the sources and stay parameters. *)
Record ConfigT := {
  MAX_FILTER_FREQ : num;
  MAX_FILTER_Q : num;
  MAX_FILTER_LFO_SPEED : num;
  MAX_FILTER_LFO_DEPTH : num;
  MAX_DELAY_CUTOFF : num;
  MIN_DELAY_OFFSET : num
}.

(** A timer registered with [createTimer]: when it fires, and what the
    closure captured. *)
Record Timer := {
  time : num;
  callback : Callback;
  event : AudioEvent
}.

(** Everything [applyModuleParamChange] can reach: its mutable arguments,
    and the calls made on the two collaborators, oldest first. *)
Record World := {
  modules : Modules;
  instrument : Instrument;
  instrumentEvents : list Voice;
  routing : list (Modules * OutputNode);
  timers : list Timer
}.

End DataModel.

Arguments OtherNode {N}.

(** ** The automation service *)

Section Automation.

Context {N : JsNumber}.
Local Open Scope js_scope.

(** *** The three methods of an [AudioParam] *)

Definition issue (c : ParamCall) (param : AudioParam) : AudioParam :=
  {| param_value := param_value param; automation := automation param ++ [c] |}.

Definition cancelScheduledValues (startTime : num) : AudioParam -> AudioParam :=
  issue (CancelScheduledValues startTime).

Definition setValueAtTime (v startTime : num) : AudioParam -> AudioParam :=
  issue (SetValueAtTime v startTime).

Definition linearRampToValueAtTime (v endTime : num) : AudioParam -> AudioParam :=
  issue (LinearRampToValueAtTime v endTime).

(** *** [scheduleParameterChange]

    [data] is the optional tracking object, seen through its [gliding]
    field, the only one read or written; the result pairs the control with
    the tracking object as the call leaves them. *)
Definition scheduleParameterChange (param : AudioParam)
    (value startTimeInSeconds durationInSeconds : num) (doGlide : bool)
    (data : option bool) : AudioParam * option bool :=
  let param :=
    if negb doGlide || match data with Some gliding => negb gliding | None => false end
    then
      let param := cancelScheduledValues startTimeInSeconds param in
      setValueAtTime (if doGlide then param_value param else value)
                     startTimeInSeconds param
    else param in
  if doGlide
  then (linearRampToValueAtTime value (startTimeInSeconds + durationInSeconds) param,
        match data with Some _ => Some true | None => None end)
  else (param, data).

(** *** Field updates *)

(** The voice after [scheduleParameterChange( voice.gain.gain, ..., voice )]
    returned [r]. *)
Definition withGain (voice : Voice) (r : AudioParam * option bool) : Voice :=
  {| generator := generator voice;
     frequency := frequency voice;
     gain_gain := fst r;
     gliding := match snd r with Some g => g | None => gliding voice end |}.

(** The voice after a call on the rate control of its generator, rebuilt
    by [mk], returned [r]. *)
Definition withRate (voice : Voice) (mk : AudioParam -> Generator)
    (r : AudioParam * option bool) : Voice :=
  {| generator := mk (fst r);
     frequency := frequency voice;
     gain_gain := gain_gain voice;
     gliding := match snd r with Some g => g | None => gliding voice end |}.

Definition withPan (m : Modules) (p : AudioParam) : Modules :=
  {| panner_pan := p; filter := filter m; delay := delay m |}.

Definition withFilter (m : Modules) (f : FilterModule) : Modules :=
  {| panner_pan := panner_pan m; filter := f; delay := delay m |}.

Definition withDelay (m : Modules) (d : DelayModule) : Modules :=
  {| panner_pan := panner_pan m; filter := filter m; delay := d |}.

Definition withFilterEnabled (f : FilterModule) (b : bool) : FilterModule :=
  {| filterEnabled := b; filter_frequency := filter_frequency f;
     filter_Q := filter_Q f; lfo_frequency := lfo_frequency f;
     lfoAmp_gain := lfoAmp_gain f |}.

Definition withFilterFrequency (f : FilterModule) (p : AudioParam) : FilterModule :=
  {| filterEnabled := filterEnabled f; filter_frequency := p;
     filter_Q := filter_Q f; lfo_frequency := lfo_frequency f;
     lfoAmp_gain := lfoAmp_gain f |}.

Definition withFilterQ (f : FilterModule) (p : AudioParam) : FilterModule :=
  {| filterEnabled := filterEnabled f; filter_frequency := filter_frequency f;
     filter_Q := p; lfo_frequency := lfo_frequency f;
     lfoAmp_gain := lfoAmp_gain f |}.

Definition withLfoFrequency (f : FilterModule) (p : AudioParam) : FilterModule :=
  {| filterEnabled := filterEnabled f; filter_frequency := filter_frequency f;
     filter_Q := filter_Q f; lfo_frequency := p;
     lfoAmp_gain := lfoAmp_gain f |}.

Definition withLfoAmpGain (f : FilterModule) (p : AudioParam) : FilterModule :=
  {| filterEnabled := filterEnabled f; filter_frequency := filter_frequency f;
     filter_Q := filter_Q f; lfo_frequency := lfo_frequency f;
     lfoAmp_gain := p |}.

Definition withDelayEnabled (d : DelayModule) (b : bool) : DelayModule :=
  {| delayEnabled := b; delay_delay := delay_delay d;
     delay_feedback := delay_feedback d; delay_cutoff := delay_cutoff d;
     delay_offset := delay_offset d |}.

Definition withDelayTime (d : DelayModule) (x : num) : DelayModule :=
  {| delayEnabled := delayEnabled d; delay_delay := x;
     delay_feedback := delay_feedback d; delay_cutoff := delay_cutoff d;
     delay_offset := delay_offset d |}.

Definition withDelayFeedback (d : DelayModule) (x : num) : DelayModule :=
  {| delayEnabled := delayEnabled d; delay_delay := delay_delay d;
     delay_feedback := x; delay_cutoff := delay_cutoff d;
     delay_offset := delay_offset d |}.

Definition withDelayCutoff (d : DelayModule) (x : num) : DelayModule :=
  {| delayEnabled := delayEnabled d; delay_delay := delay_delay d;
     delay_feedback := delay_feedback d; delay_cutoff := x;
     delay_offset := delay_offset d |}.

Definition withDelayOffset (d : DelayModule) (x : num) : DelayModule :=
  {| delayEnabled := delayEnabled d; delay_delay := delay_delay d;
     delay_feedback := delay_feedback d; delay_cutoff := delay_cutoff d;
     delay_offset := x |}.

(** *** Collaborators *)

(** Modelled from the spec: [processVoices] of [audio-util], which is not
    among the sources; it "applies [fn] to every live voice".  The callback
    mutates the voice it is given, so the voices come back in place. *)
Definition processVoices (instrumentEvents : list Voice) (fn : Voice -> Voice)
    : list Voice :=
  map fn instrumentEvents.

(** Modelled from the spec: [createTimer] of [webaudio-helper], which is not
    among the sources; it "schedules [fn] to run at [time] on the audio
    clock" and returns.  The closure is kept as what it captured. *)
Definition createTimer (startTime : num) (cb : Callback) (ev : AudioEvent)
    (pending : list Timer) : list Timer :=
  pending ++ [ {| time := startTime; callback := cb; event := ev |} ].

(** Modelled from the spec: [applyRouting] of [module-router], which is not
    among the sources; the call is recorded with the module state it is
    given. *)
Definition applyRouting (m : Modules) (output : OutputNode)
    (calls : list (Modules * OutputNode)) : list (Modules * OutputNode) :=
  calls ++ [(m, output)].

(** *** The appliers *)

Definition applyVolumeEnvelope (audioEvent : AudioEvent)
    (instrumentEvents : list Voice) (startTimeInSeconds : num) : list Voice :=
  let mp := mp audioEvent in
  let doGlide := glide mp in
  let durationInSeconds := mpLength (seq audioEvent) in
  let target := value mp / lit 100 in
  processVoices instrumentEvents (fun voice =>
    withGain voice
      (scheduleParameterChange (gain_gain voice) target startTimeInSeconds
         durationInSeconds doGlide (Some (gliding voice)))).

Definition isPitchUp (t : ModuleTag) : bool :=
  match t with PITCH_UP => true | _ => false end.

Definition applyPitchShift (audioEvent : AudioEvent)
    (instrumentEvents : list Voice) (startTimeInSeconds : num) : list Voice :=
  let mp := mp audioEvent in
  let doGlide := glide mp in
  let durationInSeconds := mpLength (seq audioEvent) in
  let goingUp := isPitchUp (module mp) in
  processVoices instrumentEvents (fun voice =>
    match generator voice with
    | OscillatorNode generator_frequency =>
        let tmp := frequency voice + (frequency voice / lit 1200) in
        let target := tmp * (value mp / lit 100) in
        let target :=
          if goingUp then target + frequency voice
          else frequency voice - (target / lit 2) in
        withRate voice (@OscillatorNode N)
          (scheduleParameterChange generator_frequency target
             startTimeInSeconds durationInSeconds doGlide (Some (gliding voice)))
    | AudioBufferSourceNode generator_playbackRate =>
        let tmp := value mp / lit 100 in
        let target :=
          if goingUp then param_value generator_playbackRate + tmp
          else param_value generator_playbackRate - tmp in
        withRate voice (@AudioBufferSourceNode N)
          (scheduleParameterChange generator_playbackRate target
             startTimeInSeconds durationInSeconds doGlide (Some (gliding voice)))
    | OtherNode => voice
    end).

Definition isPanLeft (t : ModuleTag) : bool :=
  match t with PAN_LEFT => true | _ => false end.

Definition applyPanning (audioEvent : AudioEvent) (modules : Modules)
    (startTimeInSeconds : num) : Modules :=
  let mp := mp audioEvent in
  let doGlide := glide mp in
  let durationInSeconds := mpLength (seq audioEvent) in
  let target := value mp / lit 100 in
  withPan modules
    (fst (scheduleParameterChange (panner_pan modules)
            (if isPanLeft (module mp) then - target else target)
            startTimeInSeconds durationInSeconds doGlide None)).

Variable Config : ConfigT.

Definition applyFilter (audioEvent : AudioEvent) (modules : Modules)
    (startTimeInSeconds : num) : Modules :=
  let mp := mp audioEvent in
  let doGlide := glide mp in
  let durationInSeconds := mpLength (seq audioEvent) in
  let module_ := filter modules in
  let target := value mp / lit 100 in
  match module mp with
  | FILTER_FREQ =>
      withFilter modules (withFilterFrequency module_
        (fst (scheduleParameterChange (filter_frequency module_)
                (target * MAX_FILTER_FREQ Config)
                startTimeInSeconds durationInSeconds doGlide None)))
  | FILTER_Q =>
      withFilter modules (withFilterQ module_
        (fst (scheduleParameterChange (filter_Q module_)
                (target * MAX_FILTER_Q Config)
                startTimeInSeconds durationInSeconds doGlide None)))
  | FILTER_LFO_SPEED =>
      withFilter modules (withLfoFrequency module_
        (fst (scheduleParameterChange (lfo_frequency module_)
                (target * MAX_FILTER_LFO_SPEED Config)
                startTimeInSeconds durationInSeconds doGlide None)))
  | FILTER_LFO_DEPTH =>
      withFilter modules (withLfoAmpGain module_
        (fst (scheduleParameterChange (lfoAmp_gain module_)
                ((target * MAX_FILTER_LFO_DEPTH Config) / lit 100
                   * param_value (filter_frequency module_))
                startTimeInSeconds durationInSeconds doGlide None)))
  | _ => modules
  end.

Definition applyDelay (audioEvent : AudioEvent) (modules : Modules) : Modules :=
  let mp := mp audioEvent in
  let module_ := delay modules in
  let target := value mp / lit 100 in
  match module mp with
  | DELAY_TIME => withDelay modules (withDelayTime module_ target)
  | DELAY_FEEDBACK => withDelay modules (withDelayFeedback module_ target)
  | DELAY_CUTOFF =>
      withDelay modules (withDelayCutoff module_ (target * MAX_DELAY_CUTOFF Config))
  | DELAY_OFFSET =>
      withDelay modules (withDelayOffset module_ (MIN_DELAY_OFFSET Config + target))
  | _ => modules
  end.

(** What the closure given to [createTimer] passes to the callback:
    [parseInt(`0x${toHex(event.mp.value)}`, 16)], [None] being NaN. *)
Definition externalValue (event : AudioEvent) : option Z :=
  parseInt16 ("0x" ++ toHex (value (mp event))).

(** The call made when a timer fires: the callback and its argument. *)
Definition fire (t : Timer) : Callback * option Z :=
  (callback t, externalValue (event t)).

Definition applyExternalEvent (event : AudioEvent) (startTimeInSeconds : num)
    (eventCallback : option Callback) (pending : list Timer) : list Timer :=
  match eventCallback with
  | None => pending
  | Some cb => createTimer startTimeInSeconds cb event pending
  end.

(** *** The dispatcher *)

Definition filterTypes : list string :=
  ["off"; "sine"; "square"; "sawtooth"; "triangle"].

(** [rangeToIndex] of [array-util] is not among the sources. *)
Variable rangeToIndex : list string -> num -> num.

Definition withModules (w : World) (m : Modules) : World :=
  {| modules := m; instrument := instrument w;
     instrumentEvents := instrumentEvents w;
     routing := routing w; timers := timers w |}.

Definition withInstrument (w : World) (i : Instrument) : World :=
  {| modules := modules w; instrument := i;
     instrumentEvents := instrumentEvents w;
     routing := routing w; timers := timers w |}.

Definition withVoices (w : World) (vs : list Voice) : World :=
  {| modules := modules w; instrument := instrument w;
     instrumentEvents := vs;
     routing := routing w; timers := timers w |}.

Definition withRouting (w : World) (r : list (Modules * OutputNode)) : World :=
  {| modules := modules w; instrument := instrument w;
     instrumentEvents := instrumentEvents w;
     routing := r; timers := timers w |}.

Definition withTimers (w : World) (t : list Timer) : World :=
  {| modules := modules w; instrument := instrument w;
     instrumentEvents := instrumentEvents w;
     routing := routing w; timers := t |}.

(** [applyModuleParamChange]: [w] holds [modules], [instrument] and
    [instrumentEvents]; the audio context is only handed on to
    [createTimer]. *)
Definition applyModuleParamChange (audioEvent : AudioEvent) (w : World)
    (startTimeInSeconds : num) (output : OutputNode)
    (optEventCallback : option Callback) : World :=
  match module (mp audioEvent) with
  | VOLUME =>
      withVoices w
        (applyVolumeEnvelope audioEvent (instrumentEvents w) startTimeInSeconds)
  | PAN_LEFT | PAN_RIGHT =>
      withModules w (applyPanning audioEvent (modules w) startTimeInSeconds)
  | PITCH_UP | PITCH_DOWN =>
      withVoices w
        (applyPitchShift audioEvent (instrumentEvents w) startTimeInSeconds)
  | FILTER_ENABLED =>
      let w := withModules w
        (withFilter (modules w)
           (withFilterEnabled (filter (modules w))
              (value (mp audioEvent) >=? lit 50))) in
      withRouting w (applyRouting (modules w) output (routing w))
  | FILTER_LFO_ENABLED =>
      let w := withInstrument w
        {| filter_lfoType := rangeToIndex filterTypes (value (mp audioEvent)) |} in
      withRouting w (applyRouting (modules w) output (routing w))
  | FILTER_FREQ | FILTER_Q | FILTER_LFO_SPEED | FILTER_LFO_DEPTH =>
      withModules w (applyFilter audioEvent (modules w) startTimeInSeconds)
  | DELAY_ENABLED =>
      let w := withModules w
        (withDelay (modules w)
           (withDelayEnabled (delay (modules w))
              (value (mp audioEvent) >=? lit 50))) in
      withRouting w (applyRouting (modules w) output (routing w))
  | DELAY_TIME | DELAY_FEEDBACK | DELAY_CUTOFF | DELAY_OFFSET =>
      withModules w (applyDelay audioEvent (modules w))
  | EXTERNAL_EVENT =>
      withTimers w
        (applyExternalEvent audioEvent startTimeInSeconds optEventCallback
           (timers w))
  | OTHER _ => w
  end.

End Automation.

(** ** The specification's formulas

    The definitions below follow the words of the specification; the
    theorems compare them with the program. *)

Section SpecWords.

Context {N : JsNumber}.
Local Open Scope js_scope.

(** Scheduler, step 1: "cancel all pending scheduled changes on the control
    from [startTime] onward, then set the control's value at [startTime]:
    to the control's current value if gliding, or directly to
    [targetValue] if not gliding". *)
Definition spec_cancelAndSnap (control : AudioParam) (targetValue startTime : num)
    (doGlide : bool) : list ParamCall :=
  [ CancelScheduledValues startTime;
    SetValueAtTime (if doGlide then param_value control else targetValue) startTime ].

(** Scheduler, step 2: "program a linear ramp to [targetValue], completing
    at [startTime + durationSeconds]". *)
Definition spec_ramp (targetValue startTime durationSeconds : num) : list ParamCall :=
  [ LinearRampToValueAtTime targetValue (startTime + durationSeconds) ].

(** The values a sequence of calls sets a control to, in order. *)
Definition targetsOf (calls : list ParamCall) : list num :=
  flat_map (fun c =>
    match c with
    | CancelScheduledValues _ => []
    | SetValueAtTime v _ => [v]
    | LinearRampToValueAtTime v _ => [v]
    end) calls.

Definition isCancel (c : ParamCall) : bool :=
  match c with CancelScheduledValues _ => true | _ => false end.

(** Pitch applier, oscillator-type:
    "delta = baseFrequency * (1 + 1/1200) * (value/100); if direction is up,
    target = baseFrequency + delta; if down, target = baseFrequency - delta/2". *)
Definition spec_oscillatorTarget (goingUp : bool) (baseFrequency value : num) : num :=
  let delta := baseFrequency * (lit 1 + lit 1 / lit 1200) * (value / lit 100) in
  if goingUp then baseFrequency + delta else baseFrequency - delta / lit 2.

(** Filter applier, filter-lfo-depth: "scaled by configuredMaxDepth/100 and
    then multiplied by the filter's current cutoff-frequency value". *)
Definition spec_lfoDepthTarget (maxDepth cutoff value : num) : num :=
  (value / lit 100) * (maxDepth / lit 100) * cutoff.

(** External event: "round(value * 2.55), zero-padded 2-digit hex, reparsed
    as integer"; a result of [Math.round] that is negative or not finite
    prints with a character that is no digit and reparses as NaN. *)
Definition spec_denormalize (value : num) : option Z :=
  match Math_round (value * (lit 255 / lit 100)) with
  | RInteger n => if (0 <=? n)%Z then Some n else None
  | _ => None
  end.

(** The calls a scheduling without continuation state adds: the last one
    carries the target. *)
Definition freshCalls (target startTime duration : num)
    (doGlide : bool) : list ParamCall :=
  if doGlide
  then [ LinearRampToValueAtTime target (add startTime duration) ]
  else [ CancelScheduledValues startTime; SetValueAtTime target startTime ].

(** An event with the four fields the appliers read. *)
Definition mkEvent (tag : ModuleTag) (v : num) (doGlide : bool) (duration : num)
    : AudioEvent :=
  {| mp := {| module := tag; value := v; glide := doGlide |};
     seq := {| mpLength := duration |} |}.

(** A control that reads [v] and has received no call. *)
Definition idle (v : num) : AudioParam :=
  {| param_value := v; automation := [] |}.

End SpecWords.

(** ** Sample data *)

Module Sample.

Section Generic.
Context {N : JsNumber}.

Definition config : ConfigT :=
  {| MAX_FILTER_FREQ := lit 22050; MAX_FILTER_Q := lit 40;
     MAX_FILTER_LFO_SPEED := lit 25; MAX_FILTER_LFO_DEPTH := lit 100;
     MAX_DELAY_CUTOFF := lit 22050; MIN_DELAY_OFFSET := neg (div (lit 1) (lit 2)) |}.

Definition filterAt (cutoff : num) : FilterModule :=
  {| filterEnabled := false; filter_frequency := idle cutoff;
     filter_Q := idle (lit 5); lfo_frequency := idle (lit 1);
     lfoAmp_gain := idle (lit 0) |}.

Definition delayOff : DelayModule :=
  {| delayEnabled := false; delay_delay := lit 0; delay_feedback := lit 0;
     delay_cutoff := lit 1500; delay_offset := lit 0 |}.

Definition modulesAt (cutoff : num) : Modules :=
  {| panner_pan := idle (lit 0); filter := filterAt cutoff; delay := delayOff |}.

End Generic.

End Sample.

(** ** The number utilities: [fromHex] *)

(** The blanks [parseInt] skips at the head of a string, among the
    characters a string of bytes can hold: tab, line feed, vertical tab, form
    feed, carriage return, space and no-break space. *)
Definition isBlank (c : ascii) : bool :=
  let n := Z.of_N (N_of_ascii c) in
  (((9 <=? n) && (n <=? 13)) || (n =? 32) || (n =? 160))%Z.

Fixpoint trimStart (s : string) : string :=
  match s with
  | String c r => if isBlank c then trimStart r else s
  | EmptyString => s
  end.

Definition startsWithMinus (s : string) : bool :=
  match s with
  | String "-" _ => true
  | _ => false
  end.

Section FromHex.

Context {N : JsNumber}.
Local Open Scope js_scope.

(** [fromHex( value )]: [parseInt( value, 16 ) / RESOLUTION].  [None] is NaN,
    which the division keeps; a zero read after a minus sign is the
    negative zero. *)
Definition fromHex (value : string) : option num :=
  let s := trimStart value in
  match parseInt16 s with
  | None => None
  | Some n =>
      let parsed := if startsWithMinus s && (n =? 0)%Z then - lit 0 else lit n in
      Some (parsed / RESOLUTION)
  end.

End FromHex.

(** ** Vocabulary of the further properties *)

(** The two digits of a byte, as [toHex] prints them. *)
Definition hexByte (n : Z) : string :=
  String (hexDigit (n / 16)) (String (hexDigit (n mod 16)) EmptyString).

(** The bytes, 0 to 255. *)
Definition bytes : list Z := map Z.of_nat (List.seq 0 256).

(** A byte survives [fromHex] then [toHex] on doubles, comes out of
    [fromHex] between 0 and 100, and a hundredth of that lies between 0
    and 1. *)
Definition byteSurvives (n : Z) : bool :=
  match fromHex (N := Binary64.number) (hexByte n) with
  | Some v => String.eqb (toHex v) (hexByte n)
  | None => false
  end.

Definition byteInRange (n : Z) : bool :=
  match fromHex (N := Binary64.number) (hexByte n) with
  | Some v =>
      geb v (lit 0) && geb (lit 100) v
      && geb (div v (lit 100)) (lit 0) && geb (lit 1) (div v (lit 100))
  | None => false
  end.

(** On doubles, the value [fromHex] reads from a byte passes the test
    [value >= 50] of the two enabling events exactly from byte 128 on. *)
Definition byteEnables (n : Z) : bool :=
  match fromHex (N := Binary64.number) (hexByte n) with
  | Some v => Bool.eqb (geb v (lit 50)) (128 <=? n)%Z
  | None => false
  end.

(** What [toHex] makes of a natural number: its digits, with a zero in
    front of a single one. *)
Definition padded (n : Z) : string :=
  let hex := hexOfNat n in
  if Nat.eqb (String.length hex) 1 then String "0" hex else hex.

Section Vocabulary.

Context {N : JsNumber}.

(** The controls a voice carries, and those of the shared modules. *)
Definition voiceControls (voice : Voice) : list AudioParam :=
  gain_gain voice
  :: match generator voice with
     | OscillatorNode control => [control]
     | AudioBufferSourceNode control => [control]
     | OtherNode => []
     end.

Definition moduleControls (m : Modules) : list AudioParam :=
  [ panner_pan m; filter_frequency (filter m); filter_Q (filter m);
    lfo_frequency (filter m); lfoAmp_gain (filter m) ].

Definition controls (w : World) : list AudioParam :=
  (moduleControls (modules w) ++ flat_map voiceControls (instrumentEvents w))%list.

(** [p'] is [p] after some more calls: the reading is the same and the
    calls received before are all there, in order. *)
Definition extends (p p' : AudioParam) : Prop :=
  param_value p' = param_value p
  /\ exists calls, automation p' = (automation p ++ calls)%list.

(** Two generators of the same class. *)
Definition sameClass (g g' : Generator) : bool :=
  match g, g' with
  | OscillatorNode _, OscillatorNode _ => true
  | AudioBufferSourceNode _, AudioBufferSourceNode _ => true
  | OtherNode, OtherNode => true
  | _, _ => false
  end.

Definition hasRate (g : Generator) : bool :=
  match g with OtherNode => false | _ => true end.

(** The last call a scheduling leaves on a control. *)
Definition closingCall (target startTime duration : num) (doGlide : bool)
    : ParamCall :=
  if doGlide then LinearRampToValueAtTime target (add startTime duration)
  else SetValueAtTime target startTime.

(** The tags on which the dispatcher calls the router. *)
Definition callsRouter (t : ModuleTag) : bool :=
  match t with
  | FILTER_ENABLED | FILTER_LFO_ENABLED | DELAY_ENABLED => true
  | _ => false
  end.

Definition isExternal (t : ModuleTag) : bool :=
  match t with EXTERNAL_EVENT => true | _ => false end.

Definition isLfoType (t : ModuleTag) : bool :=
  match t with FILTER_LFO_ENABLED => true | _ => false end.

End Vocabulary.

(** ** Hexadecimal strings: printing then reading *)

Lemma digitValue_hexDigit (d : Z) :
  (0 <= d < 16)%Z -> digitValue (hexDigit d) = Some d.
Proof.
  intros H.
  assert (E : (d = 0 \/ d = 1 \/ d = 2 \/ d = 3 \/ d = 4 \/ d = 5 \/ d = 6
               \/ d = 7 \/ d = 8 \/ d = 9 \/ d = 10 \/ d = 11 \/ d = 12
               \/ d = 13 \/ d = 14 \/ d = 15)%Z) by lia.
  repeat (destruct E as [E | E]; [subst d; reflexivity | ]).
  subst d; reflexivity.
Qed.

(** Reading the digits of [n] leaves the reader at [acc] with [n] read. *)
Lemma parseDigits_hexDigits (fuel : nat) :
  forall (n : Z) (acc : string) (seen : bool),
    (0 <= n < 16 ^ Z.of_nat (S fuel))%Z ->
    parseDigits (hexDigits fuel n acc) seen 0 = parseDigits acc true n.
Proof.
  induction fuel as [| fuel IH]; intros n acc seen Hn.
  - change (16 ^ Z.of_nat 1)%Z with 16%Z in Hn.
    simpl. rewrite digitValue_hexDigit by lia.
    f_equal.
  - cbn [hexDigits]. destruct (Z.ltb_spec n 16) as [Hlt | Hge].
    + simpl. rewrite digitValue_hexDigit by lia. f_equal.
    + rewrite IH.
      * cbn [parseDigits].
        rewrite digitValue_hexDigit by (apply Z.mod_pos_bound; lia).
        f_equal. pose proof (Z.div_mod n 16). lia.
      * split; [apply Z.div_pos; lia | ].
        apply Z.div_lt_upper_bound; [lia | ].
        replace (Z.of_nat (S (S fuel))) with (Z.succ (Z.of_nat (S fuel))) in Hn by lia.
        rewrite Z.pow_succ_r in Hn by lia. lia.
Qed.

Lemma hexOfNat_fuel (n : Z) :
  (0 <= n)%Z -> (0 <= n < 16 ^ Z.of_nat (S (Z.to_nat (Z.log2 n))))%Z.
Proof.
  intros Hn. split; [exact Hn | ].
  destruct (Z.eq_dec n 0) as [-> | Hnz]; [reflexivity | ].
  assert (Hl : (0 <= Z.log2 n)%Z) by apply Z.log2_nonneg.
  replace (Z.of_nat (S (Z.to_nat (Z.log2 n)))) with (Z.succ (Z.log2 n)) by lia.
  assert (H2 : (n < 2 ^ Z.succ (Z.log2 n))%Z) by (apply Z.log2_spec; lia).
  assert (H16 : (2 ^ Z.succ (Z.log2 n) <= 16 ^ Z.succ (Z.log2 n))%Z)
    by (apply Z.pow_le_mono_l; lia).
  lia.
Qed.

Lemma parseDigits_hexOfNat (n : Z) (seen : bool) :
  (0 <= n)%Z -> parseDigits (hexOfNat n) seen 0 = (true, n).
Proof.
  intros Hn. unfold hexOfNat.
  rewrite parseDigits_hexDigits by (apply hexOfNat_fuel; exact Hn).
  reflexivity.
Qed.

(** The first character of a printed number is a digit, so neither a sign
    nor, unless the number is zero, a zero. *)
Lemma hexDigits_head (fuel : nat) :
  forall (n : Z) (acc : string),
    (0 <= n)%Z ->
    exists d rest, hexDigits fuel n acc = String (hexDigit d) rest /\ (0 <= d)%Z.
Proof.
  induction fuel as [| fuel IH]; intros n acc Hn.
  - exists n, acc. split; [reflexivity | exact Hn].
  - cbn [hexDigits]. destruct (Z.ltb_spec n 16) as [Hlt | Hge].
    + exists n, acc. split; [reflexivity | exact Hn].
    + apply IH. apply Z.div_pos; lia.
Qed.

Lemma parseInt16_hexOfNat_padded (n : Z) :
  (0 <= n)%Z ->
  let hex := hexOfNat n in
  parseInt16 ("0x" ++ (if Nat.eqb (String.length hex) 1 then "0" ++ hex else hex))
  = Some n.
Proof.
  intros Hn hex. unfold parseInt16.
  change ("0x" ++ ?s) with (String "0" (String "x" s)).
  cbv iota beta.
  destruct (Nat.eqb (String.length hex) 1).
  - change ("0" ++ hex) with (String "0" hex).
    cbn [parseDigits]. change (digitValue "0") with (Some 0%Z). cbv iota beta.
    change (16 * 0 + 0)%Z with 0%Z.
    unfold hex. rewrite parseDigits_hexOfNat by exact Hn. reflexivity.
  - unfold hex. rewrite parseDigits_hexOfNat by exact Hn. reflexivity.
Qed.

(** ** The scheduler *)

Open Scope list_scope.

Section SchedulerFacts.

Context {N : JsNumber}.
Local Open Scope js_scope.

Lemma automation_issue (c : ParamCall) (p : AudioParam) :
  automation (issue c p) = automation p ++ [c].
Proof. reflexivity. Qed.

Lemma param_value_issue (c : ParamCall) (p : AudioParam) :
  param_value (issue c p) = param_value p.
Proof. reflexivity. Qed.

(** A call never changes what the control reads. *)
Lemma scheduleParameterChange_reading (param : AudioParam)
    (v start duration : num) (doGlide : bool) (data : option bool) :
  param_value (fst (scheduleParameterChange param v start duration doGlide data))
  = param_value param.
Proof.
  unfold scheduleParameterChange.
  destruct doGlide, data as [[|]|]; reflexivity.
Qed.

(** The calls one invocation issues, whatever its arguments. *)
Lemma scheduleParameterChange_calls (param : AudioParam)
    (v start duration : num) (doGlide : bool) (data : option bool) :
  automation (fst (scheduleParameterChange param v start duration doGlide data))
  = automation param
    ++ (if negb doGlide || match data with Some g => negb g | None => false end
        then spec_cancelAndSnap param v start doGlide else [])
    ++ (if doGlide then spec_ramp v start duration else []).
Proof.
  unfold scheduleParameterChange, spec_cancelAndSnap, spec_ramp,
    linearRampToValueAtTime, setValueAtTime, cancelScheduledValues.
  destruct doGlide, data as [[|]|]; cbn [negb orb fst];
    rewrite ?automation_issue, ?param_value_issue, <- ?app_assoc, ?app_nil_r;
    reflexivity.
Qed.

(** C1.  For every call of [scheduleParameterChange]: when [doGlide] is
    false, or a continuation state is given whose [gliding] flag is false,
    the call first cancels the scheduled changes of the control from
    [startTime] on and sets its value at [startTime], to the current
    reading when [doGlide] is true and to the target otherwise; then, when
    [doGlide] is true, it programs a linear ramp to the target ending at
    [startTime + duration] and sets the [gliding] flag of a given
    continuation state.  Nothing else is issued, and a call that does not
    glide leaves the continuation state as it was. *)
Theorem scheduleParameterChange_steps (control : AudioParam)
    (targetValue startTime durationSeconds : num) (doGlide : bool)
    (continuationState : option bool) :
  let r := scheduleParameterChange control targetValue startTime
             durationSeconds doGlide continuationState in
  let step1 :=
    if negb doGlide || match continuationState with
                       | Some gliding => negb gliding
                       | None => false
                       end
    then [ CancelScheduledValues startTime;
           SetValueAtTime (if doGlide then param_value control else targetValue)
                          startTime ]
    else [] in
  let step2 :=
    if doGlide
    then [ LinearRampToValueAtTime targetValue (startTime + durationSeconds) ]
    else [] in
  automation (fst r) = automation control ++ step1 ++ step2
  /\ param_value (fst r) = param_value control
  /\ snd r = (if doGlide
              then match continuationState with
                   | Some _ => Some true
                   | None => None
                   end
              else continuationState).
Proof.
  cbv zeta. split; [ | split].
  - apply scheduleParameterChange_calls.
  - apply scheduleParameterChange_reading.
  - unfold scheduleParameterChange. destruct doGlide; reflexivity.
Qed.

(** C2.  Two successive gliding calls on one control that share a
    continuation object whose flag starts false: the first cancels, snaps to
    the current reading, ramps and leaves the flag true; the second only
    ramps, with no further cancel or snap. *)
Theorem glide_continuation (control : AudioParam)
    (target1 start1 duration1 target2 start2 duration2 : num) :
  let first := scheduleParameterChange control target1 start1 duration1
                 true (Some false) in
  let second := scheduleParameterChange (fst first) target2 start2 duration2
                  true (snd first) in
  automation (fst first)
    = automation control
      ++ [ CancelScheduledValues start1;
           SetValueAtTime (param_value control) start1;
           LinearRampToValueAtTime target1 (start1 + duration1) ]
  /\ snd first = Some true
  /\ automation (fst second)
     = automation (fst first)
       ++ [ LinearRampToValueAtTime target2 (start2 + duration2) ]
  /\ snd second = Some true.
Proof.
  cbv zeta. split; [ | split; [ | split ] ].
  - rewrite scheduleParameterChange_calls. reflexivity.
  - reflexivity.
  - rewrite scheduleParameterChange_calls. reflexivity.
  - reflexivity.
Qed.

(** The same at the level of the volume applier, where the voice is the
    continuation object: two gliding volume events on a voice whose flag is
    false leave one cancel, one snap and two ramps on its gain. *)
Lemma volume_glide_twice (voice : Voice) (v1 d1 s1 v2 d2 s2 : num) :
  gliding voice = false ->
  match applyVolumeEnvelope (mkEvent VOLUME v2 true d2)
          (applyVolumeEnvelope (mkEvent VOLUME v1 true d1) [voice] s1) s2 with
  | [voice'] =>
      automation (gain_gain voice')
      = automation (gain_gain voice)
        ++ [ CancelScheduledValues s1;
             SetValueAtTime (param_value (gain_gain voice)) s1;
             LinearRampToValueAtTime (v1 / lit 100) (s1 + d1);
             LinearRampToValueAtTime (v2 / lit 100) (s2 + d2) ]
      /\ gliding voice' = true
  | _ => False
  end.
Proof.
  intros Hflag. cbn. rewrite Hflag. cbn.
  unfold linearRampToValueAtTime, setValueAtTime, cancelScheduledValues, issue.
  cbn. rewrite <- !app_assoc. split; reflexivity.
Qed.

(** C3, as the code has it.  A call without a continuation state: when
    [doGlide] is false it cancels the scheduled changes from [startTime] on
    and sets the value at [startTime] to the target; when [doGlide] is true
    it neither cancels nor sets a value, and only programs the ramp to the
    target ending at [startTime + duration].  The pan applier, which passes
    no continuation state, issues exactly these calls on the pan control. *)
Theorem no_continuation_state (control : AudioParam)
    (targetValue startTime durationSeconds : num) :
  scheduleParameterChange control targetValue startTime durationSeconds false None
    = (issue (SetValueAtTime targetValue startTime)
         (issue (CancelScheduledValues startTime) control), None)
  /\ scheduleParameterChange control targetValue startTime durationSeconds true None
     = (issue (LinearRampToValueAtTime targetValue (startTime + durationSeconds))
          control, None)
  /\ (forall (tag : ModuleTag) (v : num) (m : Modules),
        automation (panner_pan
          (applyPanning (mkEvent tag v true durationSeconds) m startTime))
        = automation (panner_pan m)
          ++ [ LinearRampToValueAtTime
                 (if isPanLeft tag then - (v / lit 100) else v / lit 100)
                 (startTime + durationSeconds) ]).
Proof.
  split; [reflexivity | split; [reflexivity | ] ].
  intros tag v m. unfold applyPanning, withPan.
  cbn [panner_pan]. rewrite scheduleParameterChange_calls.
  reflexivity.
Qed.

End SchedulerFacts.

(** C3, as stated, fails: a gliding call without a continuation state does
    not start afresh.  On a control with a ramp pending, it cancels nothing
    and sets no value at the start time. *)
Lemma no_continuation_state_keeps_pending :
  let control : AudioParam (N := Exact.number) :=
    {| param_value := lit 5;
       automation := [ LinearRampToValueAtTime (lit 9) (lit 4) ] |} in
  let after := fst (scheduleParameterChange control (lit 1) (lit 2) (lit 3) true None) in
  automation after
    = [ LinearRampToValueAtTime (lit 9) (lit 4);
        LinearRampToValueAtTime (lit 1) (lit 5) ]
  /\ existsb isCancel (automation after) = false
  /\ ~ (exists rest,
          automation after
          = automation control
            ++ CancelScheduledValues (lit 2)
               :: SetValueAtTime (param_value control) (lit 2) :: rest).
Proof.
  cbv zeta. split; [ | split].
  - vm_compute. reflexivity.
  - reflexivity.
  - intros [rest H]. vm_compute in H. discriminate H.
Qed.


(** ** Denormalizing the value of an external event *)

Section ExternalFacts.

Context {N : JsNumber}.

Lemma hexOfNat_not_empty (n : Z) :
  (0 <= n)%Z -> exists c rest, hexOfNat n = String c rest.
Proof.
  intros Hn. unfold hexOfNat.
  destruct (hexDigits_head (Z.to_nat (Z.log2 n)) EmptyString Hn)
    as (d & rest & E & _).
  exists (hexDigit d), rest. exact E.
Qed.

(** Printing with [toHex] and reading back with [parseInt] gives the
    rounded value when it is a natural number, and NaN otherwise. *)
Lemma parseInt16_toHex (v : num) :
  parseInt16 ("0x" ++ toHex v)%string = spec_denormalize v.
Proof.
  unfold toHex, spec_denormalize, RESOLUTION.
  destruct (Math_round (mul v (div (lit 255) (lit 100)))) as [ | [|] | [ | p | p ] ];
    try reflexivity.
  - change (toString16 (RInteger (Z.pos p))) with (hexOfNat (Z.pos p)).
    apply parseInt16_hexOfNat_padded. lia.
  - change (toString16 (RInteger (Z.neg p)))
      with (String "-" (hexOfNat (Z.pos p))).
    destruct (hexOfNat_not_empty (n := Z.pos p) ltac:(lia)) as (c & rest & E).
    rewrite E. reflexivity.
Qed.

Lemma externalValue_denormalize (ev : AudioEvent) :
  externalValue ev = spec_denormalize (value (mp ev)).
Proof. apply parseInt16_toHex. Qed.

End ExternalFacts.

(** C5, as the code has it.  With a callback registered, an external event
    registers one timer at the start time; when it fires, the callback
    receives [round(value * (255/100))] printed in hexadecimal, padded to
    two digits and read back: the rounded value itself when it is a natural
    number, NaN otherwise.  On doubles [value = 100] gives 255, [value = 0]
    gives 0 and [value = 50] gives 127, since [50 * (255/100)] is
    127.49999999999999 there; 128 is the result in exact arithmetic only. *)
Theorem external_event_value :
  (forall (N : JsNumber) (ev : AudioEvent) (startTime : num) (cb : Callback)
          (pending : list Timer),
      let timer := {| time := startTime; callback := cb; event := ev |} in
      applyExternalEvent ev startTime (Some cb) pending = pending ++ [timer]
      /\ fire timer = (cb, spec_denormalize (value (mp ev))))
  /\ externalValue (N := Binary64.number)
       (mkEvent EXTERNAL_EVENT (lit 100) false (lit 1)) = Some 255%Z
  /\ externalValue (N := Binary64.number)
       (mkEvent EXTERNAL_EVENT (lit 0) false (lit 1)) = Some 0%Z
  /\ externalValue (N := Binary64.number)
       (mkEvent EXTERNAL_EVENT (lit 50) false (lit 1)) = Some 127%Z
  /\ externalValue (N := Exact.number)
       (mkEvent EXTERNAL_EVENT (lit 50) false (lit 1)) = Some 128%Z.
Proof.
  split; [ | repeat split; vm_compute; reflexivity ].
  intros N ev startTime cb pending timer. split; [reflexivity | ].
  unfold fire, timer. cbn [callback event].
  rewrite externalValue_denormalize. reflexivity.
Qed.

(** C5, as stated, fails at [value = 50]: on the doubles of the language the
    callback receives 127, not 128. *)
Lemma external_event_fifty :
  let ev := mkEvent (N := Binary64.number) EXTERNAL_EVENT (lit 50) false (lit 1) in
  toHex (value (mp ev)) = "7f"%string
  /\ map (@fire Binary64.number) (applyExternalEvent ev (lit 0) (Some 1%nat) [])
     = [ (1%nat, Some 127%Z) ]
  /\ map (@fire Binary64.number) (applyExternalEvent ev (lit 0) (Some 1%nat) [])
     <> [ (1%nat, Some 128%Z) ].
Proof.
  cbv zeta. split; [ | split ].
  - vm_compute. reflexivity.
  - vm_compute. reflexivity.
  - vm_compute. discriminate.
Qed.

(** ** The filter applier: depth of the LFO *)

Lemma applyFilter_lfo_depth {N : JsNumber} (Config : ConfigT)
    (v duration startTime : num) (doGlide : bool) (m : Modules) :
  automation (lfoAmp_gain (filter
    (applyFilter Config (mkEvent FILTER_LFO_DEPTH v doGlide duration) m startTime)))
  = automation (lfoAmp_gain (filter m))
    ++ freshCalls
         (mul (div (mul (div v (lit 100)) (MAX_FILTER_LFO_DEPTH Config)) (lit 100))
              (param_value (filter_frequency (filter m))))
         startTime duration doGlide.
Proof.
  unfold applyFilter, freshCalls. cbn.
  rewrite scheduleParameterChange_calls. destruct doGlide; reflexivity.
Qed.

(** ** The dispatcher *)

Section DispatchFacts.

Context {N : JsNumber}.
Variable Config : ConfigT.
Variable rangeToIndex : list string -> num -> num.
Local Open Scope js_scope.

Lemma withModules_same (w : World) : withModules w (modules w) = w.
Proof. destruct w; reflexivity. Qed.

Lemma withTimers_same (w : World) : withTimers w (timers w) = w.
Proof. destruct w; reflexivity. Qed.

(** The pan applier makes one scheduling call, without continuation state,
    on the shared pan control. *)
Lemma panning_calls (tag : ModuleTag) (v : num) (doGlide : bool)
    (duration startTime : num) (m : Modules) :
  applyPanning (mkEvent tag v doGlide duration) m startTime
  = withPan m
      {| param_value := param_value (panner_pan m);
         automation :=
           automation (panner_pan m)
           ++ freshCalls (if isPanLeft tag then - (v / lit 100) else v / lit 100)
                startTime duration doGlide |}.
Proof.
  unfold applyPanning, freshCalls, scheduleParameterChange. cbn.
  destruct doGlide; cbn; unfold linearRampToValueAtTime, setValueAtTime,
    cancelScheduledValues, issue; cbn; rewrite <- ?app_assoc; reflexivity.
Qed.

Lemma targetsOf_freshCalls (target startTime duration : num) (doGlide : bool) :
  targetsOf (freshCalls target startTime duration doGlide) = [target].
Proof. destruct doGlide; reflexivity. Qed.

(** C9.  The three gaps are passed in silence: an event with a tag outside
    the enumeration leaves everything as it was; a voice whose generator
    is neither an oscillator nor a sample player is left as it was by the
    pitch applier, which treats the voices before and after it as if it
    were not there; an external event without a callback leaves everything
    as it was. *)
Theorem contract_gaps_are_silent :
  (forall (name : string) (v : num) (doGlide : bool) (duration : num)
          (w : World) (startTime : num) (output : OutputNode)
          (cb : option Callback),
      applyModuleParamChange Config rangeToIndex
      (mkEvent (OTHER name) v doGlide duration) w startTime output cb
      = w)
  /\ (forall (ev : AudioEvent) (before after : list Voice) (f : num)
             (g : AudioParam) (flag : bool) (startTime : num),
        let skipped := {| generator := OtherNode; frequency := f;
                          gain_gain := g; gliding := flag |} in
        applyPitchShift ev (before ++ skipped :: after) startTime
        = applyPitchShift ev before startTime
          ++ skipped :: applyPitchShift ev after startTime)
  /\ (forall (v : num) (doGlide : bool) (duration : num) (w : World)
             (startTime : num) (output : OutputNode),
        applyModuleParamChange Config rangeToIndex
      (mkEvent EXTERNAL_EVENT v doGlide duration) w startTime
          output None
        = w).
Proof.
  split; [ | split ].
  - reflexivity.
  - intros ev before after f g flag startTime skipped.
    unfold applyPitchShift, processVoices.
    rewrite map_app. reflexivity.
  - intros v doGlide duration w startTime output.
    cbn. apply withTimers_same.
Qed.

End DispatchFacts.

(** C8.  A panning event schedules exactly one change of the shared pan
    control and touches nothing else: the target is [-(value/100)] for
    pan-left and [value/100] for pan-right.  On doubles, as in exact
    arithmetic, [value = 100] gives -1 on the left and 1 on the right, and
    [value = 0] gives zero on either side (the negative zero on the left,
    which the language holds equal to zero). *)
Theorem panning_target :
  (forall (N : JsNumber) (Config : ConfigT)
          (rangeToIndex : list string -> num -> num) (v : num)
          (doGlide : bool) (duration : num) (w : World) (startTime : num)
          (output : OutputNode) (cb : option Callback) (left : bool),
      let tag := if left then PAN_LEFT else PAN_RIGHT in
      let target := if left then neg (div v (lit 100)) else div v (lit 100) in
      let after := applyModuleParamChange Config rangeToIndex
                     (mkEvent tag v doGlide duration) w startTime output cb in
      (exists calls,
          automation (panner_pan (modules after))
          = automation (panner_pan (modules w)) ++ calls
          /\ targetsOf calls = [target])
      /\ param_value (panner_pan (modules after))
         = param_value (panner_pan (modules w))
      /\ filter (modules after) = filter (modules w)
      /\ delay (modules after) = delay (modules w)
      /\ instrumentEvents after = instrumentEvents w
      /\ routing after = routing w
      /\ timers after = timers w)
  /\ (let N := Binary64.number in
      neg (div (lit 100) (lit 100)) = lit (-1)
      /\ div (lit 100) (lit 100) = lit 1
      /\ Binary64.eqb (neg (div (lit 0) (lit 100))) (lit 0) = true
      /\ Binary64.eqb (div (lit 0) (lit 100)) (lit 0) = true)
  /\ (let N := Exact.number in
      neg (div (lit 100) (lit 100)) = lit (-1)
      /\ div (lit 100) (lit 100) = lit 1
      /\ neg (div (lit 0) (lit 100)) = lit 0
      /\ div (lit 0) (lit 100) = lit 0).
Proof.
  split; [ | split ].
  - intros N Config rangeToIndex v doGlide duration w startTime output cb left
      tag target after.
    assert (E : modules after
                = withPan (modules w)
                    {| param_value := param_value (panner_pan (modules w));
                       automation :=
                         automation (panner_pan (modules w))
                         ++ freshCalls target startTime duration doGlide |}).
    { unfold after, tag, target.
      destruct left; cbn [applyModuleParamChange mkEvent mp module withModules modules];
        rewrite panning_calls; reflexivity. }
    split; [ | split; [ | split; [ | split ] ] ].
    + exists (freshCalls target startTime duration doGlide).
      rewrite E. split; [reflexivity | apply targetsOf_freshCalls].
    + rewrite E. reflexivity.
    + rewrite E. reflexivity.
    + rewrite E. reflexivity.
    + unfold after, tag. destruct left; repeat split.
  - cbv zeta. repeat split.
  - cbv zeta. repeat split; apply Qc_is_canon; vm_compute; reflexivity.
Qed.

(** ** Further properties: the number utilities *)

Lemma in_bytes (n : Z) : (0 <= n <= 255)%Z -> In n bytes.
Proof.
  intros Hn. unfold bytes. apply in_map_iff.
  exists (Z.to_nat n). split; [lia | ].
  apply in_seq. lia.
Qed.

Lemma over_bytes (check : Z -> bool) :
  forallb check bytes = true ->
  forall n, (0 <= n <= 255)%Z -> check n = true.
Proof.
  intros Hall n Hn.
  rewrite forallb_forall in Hall. apply Hall, in_bytes, Hn.
Qed.

Lemma padded_byte (n : Z) : (0 <= n <= 255)%Z -> padded n = hexByte n.
Proof.
  intros Hn.
  apply String.eqb_eq.
  apply (over_bytes (fun k => String.eqb (padded k) (hexByte k)));
    [ vm_compute; reflexivity | exact Hn ].
Qed.

(** X1.  On doubles, every byte written with two hexadecimal digits comes
    back unchanged from [fromHex] followed by [toHex]. *)
Theorem byte_round_trip (n : Z) (Hn : (0 <= n <= 255)%Z) :
  exists v : spec_float,
    fromHex (N := Binary64.number) (hexByte n) = Some v
    /\ toHex (N := Binary64.number) v = hexByte n.
Proof.
  pose proof (over_bytes byteSurvives ltac:(vm_compute; reflexivity) Hn) as H.
  unfold byteSurvives in H.
  destruct (fromHex (N := Binary64.number) (hexByte n)) as [v | ];
    [ | discriminate H ].
  exists v. split; [reflexivity | ].
  apply String.eqb_eq. exact H.
Qed.

Lemma byte_round_trip_witness :
  exists v : spec_float,
    fromHex (N := Binary64.number) (hexByte 128) = Some v
    /\ toHex (N := Binary64.number) v = hexByte 128.
Proof.
  apply (@byte_round_trip 128). lia.
Defined.

(** X2.  On doubles, [fromHex] takes every byte written with two
    hexadecimal digits to a number between 0 and 100, whose hundredth lies
    between 0 and 1. *)
Theorem fromHex_byte_range (n : Z) (Hn : (0 <= n <= 255)%Z) :
  exists v : spec_float,
    fromHex (N := Binary64.number) (hexByte n) = Some v
    /\ Binary64.ge v (Binary64.of_Z 0) = true
    /\ Binary64.ge (Binary64.of_Z 100) v = true
    /\ Binary64.ge (SFdiv Binary64.prec Binary64.emax v (Binary64.of_Z 100))
         (Binary64.of_Z 0) = true
    /\ Binary64.ge (Binary64.of_Z 1)
         (SFdiv Binary64.prec Binary64.emax v (Binary64.of_Z 100)) = true.
Proof.
  pose proof (over_bytes byteInRange ltac:(vm_compute; reflexivity) Hn) as H.
  unfold byteInRange in H.
  destruct (fromHex (N := Binary64.number) (hexByte n)) as [v | ];
    [ | discriminate H ].
  exists v. split; [reflexivity | ].
  apply andb_prop in H. destruct H as [H H4].
  apply andb_prop in H. destruct H as [H H3].
  apply andb_prop in H. destruct H as [H1 H2].
  repeat split; assumption.
Qed.

Lemma fromHex_byte_range_witness :
  exists v : spec_float,
    fromHex (N := Binary64.number) (hexByte 255) = Some v
    /\ Binary64.ge v (Binary64.of_Z 0) = true
    /\ Binary64.ge (Binary64.of_Z 100) v = true
    /\ Binary64.ge (SFdiv Binary64.prec Binary64.emax v (Binary64.of_Z 100))
         (Binary64.of_Z 0) = true
    /\ Binary64.ge (Binary64.of_Z 1)
         (SFdiv Binary64.prec Binary64.emax v (Binary64.of_Z 100)) = true.
Proof.
  apply (@fromHex_byte_range 255). lia.
Defined.

(** X3.  On doubles, an external event whose value is what [fromHex] reads
    from a byte hands that byte to the callback when its timer fires. *)
Theorem external_event_byte (n : Z) (Hn : (0 <= n <= 255)%Z) :
  exists v : spec_float,
    fromHex (N := Binary64.number) (hexByte n) = Some v
    /\ forall (doGlide : bool) (duration startTime : spec_float) (cb : Callback),
         map (@fire Binary64.number)
           (applyExternalEvent
              (mkEvent (N := Binary64.number) EXTERNAL_EVENT v doGlide duration)
              startTime (Some cb) [])
         = [ (cb, Some n) ].
Proof.
  pose proof (over_bytes byteSurvives ltac:(vm_compute; reflexivity) Hn) as H.
  unfold byteSurvives in H.
  destruct (fromHex (N := Binary64.number) (hexByte n)) as [v | ];
    [ | discriminate H ].
  exists v. split; [reflexivity | ].
  intros doGlide duration startTime cb.
  apply String.eqb_eq in H.
  assert (E : externalValue
                (mkEvent (N := Binary64.number) EXTERNAL_EVENT v doGlide duration)
              = Some n).
  { unfold externalValue.
    change (value (mp (mkEvent EXTERNAL_EVENT v doGlide duration))) with v.
    rewrite H, <- (padded_byte Hn).
    apply parseInt16_hexOfNat_padded. lia. }
  cbn [applyExternalEvent createTimer app map].
  unfold fire. cbn [callback event]. rewrite E. reflexivity.
Qed.

Lemma external_event_byte_witness :
  exists v : spec_float,
    fromHex (N := Binary64.number) (hexByte 127) = Some v
    /\ forall (doGlide : bool) (duration startTime : spec_float) (cb : Callback),
         map (@fire Binary64.number)
           (applyExternalEvent
              (mkEvent (N := Binary64.number) EXTERNAL_EVENT v doGlide duration)
              startTime (Some cb) [])
         = [ (cb, Some 127%Z) ].
Proof.
  apply (@external_event_byte 127). lia.
Defined.

Section ToHexFacts.

Context {N : JsNumber}.

Lemma length_hexOfNat (n : Z) :
  (0 <= n)%Z -> (1 <= String.length (hexOfNat n))%nat.
Proof.
  intros Hn. destruct (hexOfNat_not_empty Hn) as (c & rest & E).
  rewrite E. cbn. lia.
Qed.

(** X4.  [toHex] never returns fewer than two characters, whatever number
    it is given. *)
Theorem toHex_at_least_two (v : num) : (2 <= String.length (toHex v))%nat.
Proof.
  unfold toHex.
  destruct (Math_round (mul v RESOLUTION)) as [ | [|] | [ | p | p ] ];
    try (cbn; lia).
  - change (toString16 (RInteger (Z.pos p))) with (hexOfNat (Z.pos p)).
    pose proof (length_hexOfNat (n := Z.pos p) ltac:(lia)) as Hl.
    destruct (Nat.eqb_spec (String.length (hexOfNat (Z.pos p))) 1) as [E | E].
    + change ("0" ++ ?s)%string with (String "0" s). cbn [String.length]. lia.
    + lia.
  - change (toString16 (RInteger (Z.neg p)))
      with (String "-" (hexOfNat (Z.pos p))).
    pose proof (length_hexOfNat (n := Z.pos p) ltac:(lia)) as Hl.
    cbn [String.length].
    destruct (Nat.eqb_spec (S (String.length (hexOfNat (Z.pos p)))) 1) as [E | E].
    + lia.
    + cbn [String.length]. lia.
Qed.

(** X5.  When the value times [RESOLUTION] rounds to a byte, [toHex]
    returns exactly two digits: the sixteens, then the units. *)
Theorem toHex_byte (v : num) (n : Z)
    (Hround : Math_round (mul v RESOLUTION) = RInteger n)
    (Hn : (0 <= n <= 255)%Z) :
  toHex v = hexByte n.
Proof.
  unfold toHex. rewrite Hround.
  rewrite <- (padded_byte Hn). unfold padded.
  destruct n as [ | p | p ]; [reflexivity | reflexivity | lia].
Qed.

End ToHexFacts.

Lemma toHex_byte_witness :
  toHex (N := Binary64.number) (lit 50) = hexByte 127.
Proof.
  apply (@toHex_byte Binary64.number (lit 50) 127).
  - vm_compute. reflexivity.
  - lia.
Defined.

(** ** Further properties: the scheduler and the appliers *)

Section InvariantFacts.

Context {N : JsNumber}.
Variable Config : ConfigT.
Variable rangeToIndex : list string -> num -> num.
Local Open Scope js_scope.

Lemma extends_refl (p : AudioParam) : extends p p.
Proof. split; [reflexivity | exists []; symmetry; apply app_nil_r]. Qed.

Lemma extends_schedule (p : AudioParam) (v s d : num) (g : bool)
    (data : option bool) :
  extends p (fst (scheduleParameterChange p v s d g data)).
Proof.
  split.
  - apply scheduleParameterChange_reading.
  - rewrite scheduleParameterChange_calls. eexists. reflexivity.
Qed.

Lemma flag_schedule (p : AudioParam) (v s d : num) (g b : bool) :
  snd (scheduleParameterChange p v s d g (Some b)) = Some (g || b).
Proof. destruct g; reflexivity. Qed.

Lemma Forall2_same (A : Type) (R : A -> A -> Prop) (l : list A) :
  (forall x, R x x) -> Forall2 R l l.
Proof. intros H. induction l; constructor; auto. Qed.

Lemma Forall2_map_right (A : Type) (R : A -> A -> Prop) (f : A -> A)
    (l : list A) :
  (forall x, R x (f x)) -> Forall2 R l (map f l).
Proof. intros H. induction l; cbn; constructor; auto. Qed.

Lemma Forall2_flat_map_right (A B : Type) (R : B -> B -> Prop)
    (k : A -> list B) (f : A -> A) (l : list A) :
  (forall x, Forall2 R (k x) (k (f x))) ->
  Forall2 R (flat_map k l) (flat_map k (map f l)).
Proof.
  intros H. induction l; cbn; [constructor | ].
  apply Forall2_app; auto.
Qed.

Lemma schedule_last (param : AudioParam)
    (v startTime duration : num) (doGlide : bool) (data : option bool)
    (none : ParamCall) :
  last (automation
          (fst (scheduleParameterChange param v startTime duration doGlide data)))
       none
  = closingCall v startTime duration doGlide.
Proof.
  rewrite scheduleParameterChange_calls. unfold closingCall.
  destruct doGlide.
  - rewrite app_assoc. apply last_last.
  - cbn [negb orb]. unfold spec_cancelAndSnap. rewrite app_nil_r.
    change [CancelScheduledValues startTime; SetValueAtTime v startTime]
      with ([CancelScheduledValues startTime] ++ [SetValueAtTime v startTime]).
    rewrite app_assoc. apply last_last.
Qed.

(** X6.  Whatever its arguments, [scheduleParameterChange] leaves as the
    last call on the control the one that takes it to the requested value:
    the ramp ending at [startTime + duration] when gliding, the value set at
    [startTime] otherwise.  The calls the control had received stay in
    front, its reading is not written, a [gliding] flag that is set is never
    cleared, and a call that does not glide reads neither the duration nor
    the flag. *)
Theorem schedule_closing_call (param : AudioParam)
    (v startTime duration : num) (doGlide : bool) (data : option bool)
    (none : ParamCall) :
  let r := scheduleParameterChange param v startTime duration doGlide data in
  last (automation (fst r)) none = closingCall v startTime duration doGlide
  /\ extends param (fst r)
  /\ snd r = option_map (orb doGlide) data
  /\ (forall (duration' : num) (data' : option bool),
        fst (scheduleParameterChange param v startTime duration' false data')
        = fst (scheduleParameterChange param v startTime duration false data)).
Proof.
  cbv zeta. split; [ | split; [ | split ] ].
  - apply schedule_last.
  - apply extends_schedule.
  - destruct doGlide, data; reflexivity.
  - reflexivity.
Qed.

(** X7.  No event makes the dispatcher add, drop or reorder a voice, change
    the base frequency or the class of the generator of one, or clear a
    [gliding] flag that is set. *)
Theorem voices_kept (audioEvent : AudioEvent) (w : World) (startTime : num)
    (output : OutputNode) (cb : option Callback) :
  Forall2
    (fun voice voice' =>
       frequency voice' = frequency voice
       /\ sameClass (generator voice) (generator voice') = true
       /\ implb (gliding voice) (gliding voice') = true)
    (instrumentEvents w)
    (instrumentEvents
       (applyModuleParamChange Config rangeToIndex audioEvent w startTime
          output cb)).
Proof.
  assert (Hsame : forall voice : Voice,
             frequency voice = frequency voice
             /\ sameClass (generator voice) (generator voice) = true
             /\ implb (gliding voice) (gliding voice) = true).
  { intros voice. repeat split.
    - destruct (generator voice); reflexivity.
    - destruct (gliding voice); reflexivity. }
  unfold applyModuleParamChange.
  destruct (module (mp audioEvent));
    try (cbn [instrumentEvents withModules withRouting withInstrument withTimers];
         apply Forall2_same; exact Hsame).
  - cbn [instrumentEvents withVoices]. unfold applyVolumeEnvelope, processVoices.
    apply Forall2_map_right. intros voice. unfold withGain.
    cbn [frequency generator gliding]. rewrite flag_schedule.
    repeat split.
    + destruct (generator voice); reflexivity.
    + destruct (glide (mp audioEvent)), (gliding voice); reflexivity.
  - cbn [instrumentEvents withVoices]. unfold applyPitchShift, processVoices.
    apply Forall2_map_right. intros voice.
    destruct (generator voice) as [control | control | ] eqn:E;
      [ | | rewrite <- E; apply Hsame ];
      unfold withRate; cbn [frequency generator gliding];
      rewrite flag_schedule; repeat split;
      destruct (glide (mp audioEvent)), (gliding voice); reflexivity.
  - cbn [instrumentEvents withVoices]. unfold applyPitchShift, processVoices.
    apply Forall2_map_right. intros voice.
    destruct (generator voice) as [control | control | ] eqn:E;
      [ | | rewrite <- E; apply Hsame ];
      unfold withRate; cbn [frequency generator gliding];
      rewrite flag_schedule; repeat split;
      destruct (glide (mp audioEvent)), (gliding voice); reflexivity.
Qed.

(** X8.  A volume event reaches every voice: each one keeps its generator
    and base frequency, its gain keeps its reading and the calls it had, the
    last call on the gain takes it to [value/100], and its [gliding] flag is
    set when the event glides and left as it was otherwise. *)
Theorem volume_every_voice (v : num) (doGlide : bool) (duration : num)
    (w : World) (startTime : num) (output : OutputNode)
    (cb : option Callback) (none : ParamCall) :
  Forall2
    (fun voice voice' =>
       generator voice' = generator voice
       /\ frequency voice' = frequency voice
       /\ gliding voice' = (doGlide || gliding voice)
       /\ extends (gain_gain voice) (gain_gain voice')
       /\ last (automation (gain_gain voice')) none
          = closingCall (v / lit 100) startTime duration doGlide)
    (instrumentEvents w)
    (instrumentEvents
       (applyModuleParamChange Config rangeToIndex
          (mkEvent VOLUME v doGlide duration) w startTime output cb)).
Proof.
  cbn [applyModuleParamChange mkEvent mp module instrumentEvents withVoices].
  unfold applyVolumeEnvelope, processVoices.
  apply Forall2_map_right. intros voice. unfold withGain.
  cbn [generator frequency gliding gain_gain mp seq value glide mpLength].
  rewrite flag_schedule.
  repeat split.
  - apply scheduleParameterChange_reading.
  - rewrite scheduleParameterChange_calls. eexists. reflexivity.
  - apply schedule_last.
Qed.

End InvariantFacts.

Section CompositionFacts.

Context {N : JsNumber}.
Variable Config : ConfigT.
Variable rangeToIndex : list string -> num -> num.
Local Open Scope js_scope.

(** X9.  The [gliding] flag belongs to the voice, not to a control: after a
    gliding pitch event, a gliding volume event only adds its ramp to the
    gain of every voice whose generator has a rate control, without the
    cancel and the snap that a first glide on that gain gets; a voice the
    pitch applier skipped still gets them, unless its flag was set
    before. *)
Theorem pitch_glide_then_volume_glide (tag : ModuleTag)
    (v1 d1 s1 v2 d2 s2 : num) (voices : list Voice) :
  Forall2
    (fun voice voice' =>
       automation (gain_gain voice')
       = automation (gain_gain voice)
         ++ (if hasRate (generator voice) || gliding voice then []
             else [ CancelScheduledValues s2;
                    SetValueAtTime (param_value (gain_gain voice)) s2 ])
         ++ [ LinearRampToValueAtTime (v2 / lit 100) (s2 + d2) ])
    voices
    (applyVolumeEnvelope (mkEvent VOLUME v2 true d2)
       (applyPitchShift (mkEvent tag v1 true d1) voices s1) s2).
Proof.
  unfold applyVolumeEnvelope, applyPitchShift, processVoices.
  rewrite map_map. apply Forall2_map_right. intros voice.
  cbn [mkEvent mp seq value glide mpLength module].
  destruct voice as [gen f gain flag]. cbn [generator gliding gain_gain frequency].
  destruct gen as [control | control | ];
    unfold withGain, withRate; cbn [gain_gain gliding fst snd generator frequency];
    rewrite ?flag_schedule, scheduleParameterChange_calls;
    cbn [negb orb hasRate]; try reflexivity.
  destruct flag; reflexivity.
Qed.

(** X10.  What the dispatcher does to its collaborators and to the
    instrument, for every event: the router is called on the three enabling
    tags only, once, with the module state the event leaves; a timer is
    registered for an external event with a callback only, once; the
    instrument is written on filter-lfo-enabled only; and no call or timer
    already recorded is dropped. *)
Theorem dispatcher_collaborators (audioEvent : AudioEvent) (w : World)
    (startTime : num) (output : OutputNode) (cb : option Callback) :
  let tag := module (mp audioEvent) in
  let after := applyModuleParamChange Config rangeToIndex audioEvent w
                 startTime output cb in
  routing after
    = routing w ++ (if callsRouter tag then [ (modules after, output) ] else [])
  /\ timers after
     = timers w
       ++ match cb with
          | Some c =>
              if isExternal tag
              then [ {| time := startTime; callback := c; event := audioEvent |} ]
              else []
          | None => []
          end
  /\ instrument after
     = (if isLfoType tag
        then {| filter_lfoType :=
                  rangeToIndex filterTypes (value (mp audioEvent)) |}
        else instrument w).
Proof.
  cbv zeta. unfold applyModuleParamChange.
  destruct (module (mp audioEvent)); destruct cb;
    cbn [routing timers instrument modules withModules withRouting
         withInstrument withTimers withVoices callsRouter isExternal isLfoType
         applyRouting applyExternalEvent createTimer];
    rewrite ?app_nil_r; repeat split.
Qed.

Lemma extends_voice (voice voice' : Voice) :
  extends (gain_gain voice) (gain_gain voice') ->
  match generator voice, generator voice' with
  | OscillatorNode c, OscillatorNode c' => extends c c'
  | AudioBufferSourceNode c, AudioBufferSourceNode c' => extends c c'
  | OtherNode, OtherNode => True
  | _, _ => False
  end ->
  Forall2 extends (voiceControls voice) (voiceControls voice').
Proof.
  intros Hgain Hrate. unfold voiceControls.
  constructor; [exact Hgain | ].
  destruct (generator voice), (generator voice'); try contradiction.
  - constructor; [assumption | constructor].
  - constructor; [assumption | constructor].
  - constructor.
Qed.

Lemma extends_voice_same (voice : Voice) :
  Forall2 extends (voiceControls voice) (voiceControls voice).
Proof. apply Forall2_same, extends_refl. Qed.

(** X11.  For every event and every control the dispatcher can reach (the
    pan, the four controls of the filter, the gain and the rate control of
    each voice): the reading of the control is not written, and the calls it
    had received are all kept, in order, in front of the new ones. *)
Theorem controls_only_extended (audioEvent : AudioEvent) (w : World)
    (startTime : num) (output : OutputNode) (cb : option Callback) :
  Forall2 extends
    (controls w)
    (controls (applyModuleParamChange Config rangeToIndex audioEvent w
                 startTime output cb)).
Proof.
  assert (Hvoices : Forall2 extends
                      (flat_map voiceControls (instrumentEvents w))
                      (flat_map voiceControls (instrumentEvents w)))
    by (apply Forall2_same, extends_refl).
  assert (Hmodules : Forall2 extends (moduleControls (modules w))
                       (moduleControls (modules w)))
    by (apply Forall2_same, extends_refl).
  unfold applyModuleParamChange, controls.
  destruct audioEvent as [[tag v g] [d]]. cbn [mp module value glide seq mpLength].
  destruct tag;
    cbn [modules instrumentEvents withModules withRouting withInstrument
         withTimers withVoices];
    apply Forall2_app; try assumption.
  - (* volume *)
    unfold applyVolumeEnvelope, processVoices.
    apply Forall2_flat_map_right. intros voice.
    apply extends_voice; unfold withGain; cbn [gain_gain generator].
    + apply extends_schedule.
    + destruct (generator voice); try exact I; apply extends_refl.
  - (* pan-left *)
    unfold applyPanning, moduleControls, withPan.
    cbn [panner_pan filter mp module value glide seq mpLength].
    repeat (first [ apply Forall2_nil
                  | apply Forall2_cons;
                    [ first [ apply extends_refl | apply extends_schedule ] | ] ]).
  - (* pan-right *)
    unfold applyPanning, moduleControls, withPan.
    cbn [panner_pan filter mp module value glide seq mpLength].
    repeat (first [ apply Forall2_nil
                  | apply Forall2_cons;
                    [ first [ apply extends_refl | apply extends_schedule ] | ] ]).
  - (* pitch-up *)
    unfold applyPitchShift, processVoices.
    apply Forall2_flat_map_right. intros voice.
    destruct (generator voice) as [c | c | ] eqn:E;
      [ | | apply extends_voice_same ];
      apply extends_voice; unfold withRate; cbn [gain_gain generator];
      rewrite ?E; try apply extends_refl; apply extends_schedule.
  - (* pitch-down *)
    unfold applyPitchShift, processVoices.
    apply Forall2_flat_map_right. intros voice.
    destruct (generator voice) as [c | c | ] eqn:E;
      [ | | apply extends_voice_same ];
      apply extends_voice; unfold withRate; cbn [gain_gain generator];
      rewrite ?E; try apply extends_refl; apply extends_schedule.
  - (* filter-freq *)
    unfold applyFilter, moduleControls. cbn.
    repeat (first [ apply Forall2_nil
                  | apply Forall2_cons;
                    [ first [ apply extends_refl | apply extends_schedule ] | ] ]).
  - (* filter-q *)
    unfold applyFilter, moduleControls. cbn.
    repeat (first [ apply Forall2_nil
                  | apply Forall2_cons;
                    [ first [ apply extends_refl | apply extends_schedule ] | ] ]).
  - (* filter-lfo-speed *)
    unfold applyFilter, moduleControls. cbn.
    repeat (first [ apply Forall2_nil
                  | apply Forall2_cons;
                    [ first [ apply extends_refl | apply extends_schedule ] | ] ]).
  - (* filter-lfo-depth *)
    unfold applyFilter, moduleControls. cbn.
    repeat (first [ apply Forall2_nil
                  | apply Forall2_cons;
                    [ first [ apply extends_refl | apply extends_schedule ] | ] ]).
Qed.

End CompositionFacts.

Section WriteFacts.

Context {N : JsNumber}.
Variable Config : ConfigT.
Variable rangeToIndex : list string -> num -> num.
Local Open Scope js_scope.

(** X12.  Delay events compose as plain writes: of two events with the same
    tag the later one wins, and two events with different tags can be
    applied in either order. *)
Theorem delay_events_compose (t1 t2 : ModuleTag) (v1 v2 : num)
    (g1 g2 : bool) (d1 d2 : num) (m : Modules) (Hdistinct : t1 <> t2) :
  applyDelay Config (mkEvent t1 v2 g2 d2) (applyDelay Config (mkEvent t1 v1 g1 d1) m)
    = applyDelay Config (mkEvent t1 v2 g2 d2) m
  /\ applyDelay Config (mkEvent t2 v2 g2 d2) (applyDelay Config (mkEvent t1 v1 g1 d1) m)
     = applyDelay Config (mkEvent t1 v1 g1 d1) (applyDelay Config (mkEvent t2 v2 g2 d2) m).
Proof.
  split.
  - destruct t1; reflexivity.
  - destruct t1, t2; try reflexivity; exfalso; apply Hdistinct; reflexivity.
Qed.

End WriteFacts.

Lemma delay_events_compose_witness :
  let m := Sample.modulesAt (N := Binary64.number) (lit 880) in
  applyDelay Sample.config (mkEvent DELAY_FEEDBACK (lit 20) false (lit 1))
    (applyDelay Sample.config (mkEvent DELAY_TIME (lit 10) true (lit 1)) m)
  = applyDelay Sample.config (mkEvent DELAY_TIME (lit 10) true (lit 1))
      (applyDelay Sample.config (mkEvent DELAY_FEEDBACK (lit 20) false (lit 1)) m).
Proof.
  cbv zeta.
  apply (@delay_events_compose Binary64.number Sample.config
           DELAY_TIME DELAY_FEEDBACK (Binary64.of_Z 10) (Binary64.of_Z 20)
           true false (Binary64.of_Z 1) (Binary64.of_Z 1)
           (Sample.modulesAt (N := Binary64.number) (Binary64.of_Z 880))).
  discriminate.
Defined.

(** ** Further properties: [toHex] then [fromHex] *)

(** A string that opens with one or two hexadecimal digits as [toHex]
    prints them. *)
Lemma hexDigits_opening (fuel : nat) :
  forall (n : Z) (acc : string),
    (0 <= n < 16 ^ Z.of_nat (S fuel))%Z ->
    exists d rest,
      (0 <= d < 16)%Z
      /\ hexDigits fuel n acc = String (hexDigit d) rest
      /\ (rest = acc
          \/ exists d2 rest2,
               (0 <= d2 < 16)%Z /\ rest = String (hexDigit d2) rest2).
Proof.
  induction fuel as [| fuel IH]; intros n acc Hn.
  - change (16 ^ Z.of_nat 1)%Z with 16%Z in Hn.
    exists n, acc. repeat split; try lia. left. reflexivity.
  - cbn [hexDigits]. destruct (Z.ltb_spec n 16) as [Hlt | Hge].
    + exists n, acc. repeat split; try lia. left. reflexivity.
    + destruct (IH (n / 16)%Z (String (hexDigit (n mod 16)) acc))
        as (d & rest & Hd & E & Hrest).
      * split; [apply Z.div_pos; lia | ].
        apply Z.div_lt_upper_bound; [lia | ].
        replace (Z.of_nat (S (S fuel))) with (Z.succ (Z.of_nat (S fuel))) in Hn
          by lia.
        rewrite Z.pow_succ_r in Hn by lia. lia.
      * exists d, rest. split; [exact Hd | split; [exact E | ] ].
        right. destruct Hrest as [-> | Hrest]; [ | exact Hrest ].
        exists (n mod 16)%Z, acc. split; [ | reflexivity ].
        apply Z.mod_pos_bound. lia.
Qed.

Lemma sixteen_cases (d : Z) :
  (0 <= d < 16)%Z ->
  (d = 0 \/ d = 1 \/ d = 2 \/ d = 3 \/ d = 4 \/ d = 5 \/ d = 6 \/ d = 7
   \/ d = 8 \/ d = 9 \/ d = 10 \/ d = 11 \/ d = 12 \/ d = 13 \/ d = 14
   \/ d = 15)%Z.
Proof. lia. Qed.

Ltac by_digit H :=
  apply sixteen_cases in H;
  repeat (destruct H as [H | H];
          [ subst; try solve [ reflexivity | split; reflexivity ] | ]);
  subst; try solve [ reflexivity | split; reflexivity ].

(** On such a string [parseInt] finds neither blank, sign nor prefix. *)
Lemma parseInt16_digits (d : Z) (rest : string) :
  (0 <= d < 16)%Z ->
  (rest = EmptyString
   \/ exists d2 rest2, (0 <= d2 < 16)%Z /\ rest = String (hexDigit d2) rest2) ->
  parseInt16 (String (hexDigit d) rest)
  = match parseDigits (String (hexDigit d) rest) false 0 with
    | (true, v) => Some v
    | (false, _) => None
    end.
Proof.
  intros Hd Hrest. by_digit Hd.
  destruct Hrest as [-> | (d2 & rest2 & Hd2 & ->)]; [reflexivity | ].
  by_digit Hd2.
Qed.

Lemma trimStart_digit (d : Z) (rest : string) :
  (0 <= d < 16)%Z ->
  trimStart (String (hexDigit d) rest) = String (hexDigit d) rest
  /\ startsWithMinus (String (hexDigit d) rest) = false.
Proof. intros Hd. by_digit Hd. Qed.

Lemma padded_opening (n : Z) :
  (0 <= n)%Z ->
  exists d rest,
    (0 <= d < 16)%Z
    /\ padded n = String (hexDigit d) rest
    /\ (rest = EmptyString
        \/ exists d2 rest2,
             (0 <= d2 < 16)%Z /\ rest = String (hexDigit d2) rest2).
Proof.
  intros Hn.
  destruct (hexDigits_opening (Z.to_nat (Z.log2 n)) EmptyString
              (hexOfNat_fuel Hn)) as (d & rest & Hd & E & Hrest).
  unfold padded. fold (hexOfNat n) in E. rewrite E.
  destruct (Nat.eqb (String.length (String (hexDigit d) rest)) 1).
  - exists 0%Z, (String (hexDigit d) rest). repeat split; try lia.
    right. exists d, rest. split; [exact Hd | reflexivity].
  - exists d, rest. repeat split; try lia; try exact Hrest.
Qed.

Lemma parseInt16_padded (n : Z) :
  (0 <= n)%Z ->
  parseInt16 (padded n) = Some n
  /\ trimStart (padded n) = padded n
  /\ startsWithMinus (padded n) = false.
Proof.
  intros Hn.
  destruct (padded_opening Hn) as (d & rest & Hd & E & Hrest).
  destruct (trimStart_digit rest Hd) as [Ht Hm].
  rewrite E. split; [ | split; assumption ].
  rewrite (parseInt16_digits Hd Hrest), <- E.
  unfold padded.
  destruct (Nat.eqb (String.length (hexOfNat n)) 1).
  - cbn [parseDigits]. change (digitValue "0") with (Some 0%Z). cbv iota beta.
    change (16 * 0 + 0)%Z with 0%Z.
    rewrite parseDigits_hexOfNat by exact Hn. reflexivity.
  - rewrite parseDigits_hexOfNat by exact Hn. reflexivity.
Qed.

Ltac by_parse :=
  cbn;
  repeat match goal with
         | |- context [parseDigits ?s ?b ?a] =>
             destruct (parseDigits s b a) as [[|] ?]
         end;
  reflexivity.

(** A minus sign in front of digits gives the opposite number. *)
Lemma parseInt16_minus (d : Z) (rest : string) :
  (0 <= d < 16)%Z ->
  parseInt16 (String "-" (String (hexDigit d) rest))
  = option_map Z.opp (parseInt16 (String (hexDigit d) rest)).
Proof.
  intros Hd. apply sixteen_cases in Hd.
  destruct Hd as [Hd | Hd].
  - subst d. unfold parseInt16.
    destruct rest as [ | [[] [] [] [] [] [] [] []] rest ]; by_parse.
  - repeat (destruct Hd as [Hd | Hd];
            [ subst d; unfold parseInt16; by_parse | ]).
    subst d. unfold parseInt16. by_parse.
Qed.

Lemma parseInt16_negative (p : positive) :
  parseInt16 (String "-" (hexOfNat (Z.pos p))) = Some (Z.neg p).
Proof.
  destruct (hexDigits_opening (Z.to_nat (Z.log2 (Z.pos p))) EmptyString
              (hexOfNat_fuel (n := Z.pos p) ltac:(lia)))
    as (d & rest & Hd & E & Hrest).
  fold (hexOfNat (Z.pos p)) in E.
  assert (Hrest' : rest = EmptyString
                   \/ exists d2 rest2,
                        (0 <= d2 < 16)%Z /\ rest = String (hexDigit d2) rest2)
    by exact Hrest.
  rewrite E, (parseInt16_minus rest Hd), (parseInt16_digits Hd Hrest'), <- E.
  rewrite parseDigits_hexOfNat by lia. reflexivity.
Qed.

Section RoundTripFacts.

Context {N : JsNumber}.

Lemma fromHex_after_toHex (v : num) :
  fromHex (toHex v)
  = match Math_round (mul v RESOLUTION) with
    | RInteger n => Some (div (lit n) RESOLUTION)
    | _ => None
    end.
Proof.
  unfold toHex.
  destruct (Math_round (mul v RESOLUTION)) as [ | [|] | [ | p | p ] ];
    try reflexivity.
  - change (toString16 (RInteger (Z.pos p))) with (hexOfNat (Z.pos p)).
    change (if Nat.eqb (String.length (hexOfNat (Z.pos p))) 1
            then ("0" ++ hexOfNat (Z.pos p))%string
            else hexOfNat (Z.pos p))
      with (padded (Z.pos p)).
    destruct (parseInt16_padded (n := Z.pos p) ltac:(lia)) as (Hp & Ht & Hm).
    unfold fromHex. rewrite Ht, Hp, Hm. reflexivity.
  - change (toString16 (RInteger (Z.neg p)))
      with (String "-" (hexOfNat (Z.pos p))).
    destruct (hexOfNat_not_empty (n := Z.pos p) ltac:(lia)) as (c & rest & E).
    replace (if Nat.eqb (String.length (String "-" (hexOfNat (Z.pos p)))) 1
             then ("0" ++ String "-" (hexOfNat (Z.pos p)))%string
             else String "-" (hexOfNat (Z.pos p)))
      with (String "-" (hexOfNat (Z.pos p)))
      by (rewrite E; reflexivity).
    unfold fromHex.
    change (trimStart (String "-" (hexOfNat (Z.pos p))))
      with (String "-" (hexOfNat (Z.pos p))).
    rewrite parseInt16_negative. reflexivity.
Qed.

(** X15.  [fromHex] applied to what [toHex] returns: the rounded value,
    negative ones included, divided by [RESOLUTION]; NaN when the rounding
    was not finite.  So the pair never fails on a finite value, and what
    comes back depends on the value only through its rounding. *)
Theorem fromHex_toHex (v : num) :
  fromHex (toHex v)
  = match Math_round (mul v RESOLUTION) with
    | RInteger n => Some (div (lit n) RESOLUTION)
    | _ => None
    end
  /\ (forall v' : num,
        Math_round (mul v' RESOLUTION) = Math_round (mul v RESOLUTION) ->
        fromHex (toHex v') = fromHex (toHex v)).
Proof.
  split; [apply fromHex_after_toHex | ].
  intros v' E. rewrite !fromHex_after_toHex, E. reflexivity.
Qed.

(** X17.  [fromHex] answers NaN, not an error, for the empty string and for
    any string whose first character is neither a blank, a sign nor a
    hexadecimal digit. *)
Theorem fromHex_not_a_number (c : ascii) (rest : string)
    (Hblank : isBlank c = false) (Hdigit : digitValue c = None)
    (Hminus : c <> "-"%char) (Hplus : c <> "+"%char) :
  fromHex (String c rest) = None /\ fromHex EmptyString = None.
Proof.
  split; [ | reflexivity ].
  unfold fromHex. cbn [trimStart]. rewrite Hblank.
  unfold parseInt16.
  destruct c as [[] [] [] [] [] [] [] []];
    try discriminate Hdigit; try discriminate Hblank;
    try (exfalso; apply Hminus; reflexivity);
    try (exfalso; apply Hplus; reflexivity);
    reflexivity.
Qed.

End RoundTripFacts.

Lemma fromHex_not_a_number_witness :
  fromHex (N := Binary64.number) "zz" = None
  /\ fromHex (N := Binary64.number) EmptyString = None.
Proof.
  apply (@fromHex_not_a_number Binary64.number "z"%char "z"%string).
  - reflexivity.
  - reflexivity.
  - discriminate.
  - discriminate.
Defined.

(** ** What the events write, read back from the state *)

Section WrittenState.

Context {N : JsNumber}.
Variable Config : ConfigT.
Variable rangeToIndex : list string -> num -> num.
Local Open Scope js_scope.

(** The calls one scheduling with the voice as tracking object adds to a
    control. *)
Lemma tracked_calls (control : AudioParam) (target s d : num) (g flag : bool) :
  automation (fst (scheduleParameterChange control target s d g (Some flag)))
  = automation control
    ++ (if negb g || negb flag
        then [ CancelScheduledValues s;
               SetValueAtTime (if g then param_value control else target) s ]
        else [])
    ++ (if g then [ LinearRampToValueAtTime target (s + d) ] else []).
Proof. apply scheduleParameterChange_calls. Qed.

(** C4, as the code has it.  For every voice the pitch applier goes
    through, in every number system and so on doubles: an oscillator has its
    frequency control scheduled to [delta + baseFrequency] for a pitch-up
    tag and to [baseFrequency - delta/2] for a pitch-down tag, where
    [delta = (baseFrequency + baseFrequency/1200) * (value/100)] is computed
    in this order; a sample player has its playback-rate control scheduled
    to the current reading of that control plus, or minus, [value/100]; a
    voice with another generator is left as it was.  The target is read
    back from the calls the control has received. *)
Theorem pitch_shift_scheduled (goingUp : bool) (v duration startTime : num)
    (doGlide : bool) (w : World) (output : OutputNode)
    (cb : option Callback) (none : ParamCall) :
  let tag := if goingUp then PITCH_UP else PITCH_DOWN in
  let after := applyModuleParamChange Config rangeToIndex
                 (mkEvent tag v doGlide duration) w startTime output cb in
  let scheduled (voice : Voice) (control control' : AudioParam) (target : num) :=
    param_value control' = param_value control
    /\ automation control'
       = automation control
         ++ (if negb doGlide || negb (gliding voice)
             then [ CancelScheduledValues startTime;
                    SetValueAtTime
                      (if doGlide then param_value control else target)
                      startTime ]
             else [])
         ++ (if doGlide
             then [ LinearRampToValueAtTime target (startTime + duration) ]
             else [])
    /\ last (automation control') none
       = closingCall target startTime duration doGlide in
  Forall2
    (fun voice voice' =>
       frequency voice' = frequency voice
       /\ gain_gain voice' = gain_gain voice
       /\ match generator voice, generator voice' with
          | OscillatorNode control, OscillatorNode control' =>
              let f := frequency voice in
              let delta := (f + f / lit 1200) * (v / lit 100) in
              scheduled voice control control'
                (if goingUp then delta + f else f - delta / lit 2)
              /\ gliding voice' = (doGlide || gliding voice)
          | AudioBufferSourceNode control, AudioBufferSourceNode control' =>
              scheduled voice control control'
                (if goingUp then param_value control + v / lit 100
                 else param_value control - v / lit 100)
              /\ gliding voice' = (doGlide || gliding voice)
          | OtherNode, OtherNode => gliding voice' = gliding voice
          | _, _ => False
          end)
    (instrumentEvents w) (instrumentEvents after)
  /\ modules after = modules w
  /\ routing after = routing w
  /\ timers after = timers w.
Proof.
  cbv zeta. split; [ | destruct goingUp; repeat split ].
  assert (H : instrumentEvents
                (applyModuleParamChange Config rangeToIndex
                   (mkEvent (if goingUp then PITCH_UP else PITCH_DOWN) v doGlide
                      duration) w startTime output cb)
              = applyPitchShift
                  (mkEvent (if goingUp then PITCH_UP else PITCH_DOWN) v doGlide
                     duration) (instrumentEvents w) startTime)
    by (destruct goingUp; reflexivity).
  rewrite H. clear H.
  unfold applyPitchShift, processVoices.
  apply Forall2_map_right. intros voice.
  replace (isPitchUp
             (module (mp (mkEvent (if goingUp then PITCH_UP else PITCH_DOWN) v
                            doGlide duration))))
    with goingUp by (destruct goingUp; reflexivity).
  cbn [mkEvent mp seq value glide mpLength].
  destruct (generator voice) as [control | control | ] eqn:E;
    unfold withRate; cbn [generator frequency gain_gain gliding fst snd];
    rewrite ?E.
  - split; [reflexivity | split; [reflexivity | ] ].
    rewrite flag_schedule. split; [ | reflexivity ].
    split; [apply scheduleParameterChange_reading | ].
    split; [apply tracked_calls | apply schedule_last].
  - split; [reflexivity | split; [reflexivity | ] ].
    rewrite flag_schedule. split; [ | reflexivity ].
    split; [apply scheduleParameterChange_reading | ].
    split; [apply tracked_calls | apply schedule_last].
  - repeat split.
Qed.

(** The depth control after a filter-lfo-depth event, read back from the
    module state. *)
Lemma lfo_depth_read_back (v : num) (doGlide : bool) (duration : num)
    (w : World) (startTime : num) (output : OutputNode)
    (cb : option Callback) :
  let after := applyModuleParamChange Config rangeToIndex
                 (mkEvent FILTER_LFO_DEPTH v doGlide duration) w startTime
                 output cb in
  let f := filter (modules w) in
  let target := (v / lit 100 * MAX_FILTER_LFO_DEPTH Config) / lit 100
                * param_value (filter_frequency f) in
  automation (lfoAmp_gain (filter (modules after)))
    = automation (lfoAmp_gain f) ++ freshCalls target startTime duration doGlide
  /\ targetsOf (freshCalls target startTime duration doGlide) = [target]
  /\ param_value (lfoAmp_gain (filter (modules after)))
     = param_value (lfoAmp_gain f)
  /\ filter_frequency (filter (modules after)) = filter_frequency f
  /\ filter_Q (filter (modules after)) = filter_Q f
  /\ lfo_frequency (filter (modules after)) = lfo_frequency f
  /\ filterEnabled (filter (modules after)) = filterEnabled f.
Proof.
  cbv zeta.
  cbn [applyModuleParamChange mkEvent mp module modules withModules].
  split; [apply applyFilter_lfo_depth | ].
  split; [apply targetsOf_freshCalls | ].
  unfold applyFilter.
  cbn [mkEvent mp module value glide seq mpLength filter withFilter
       withLfoAmpGain lfoAmp_gain filter_frequency filter_Q lfo_frequency
       filterEnabled].
  split; [apply scheduleParameterChange_reading | repeat split].
Qed.

(** C7.  Every delay event writes its target straight into its field of
    the delay module, as the fields read afterwards show: delay-time and
    delay-feedback give [value/100], delay-cutoff [value/100] times the
    configured maximum cutoff, delay-offset the configured minimum offset
    plus [value/100]; the three other fields and the enabled flag keep
    their values.  No control receives a call, no voice, routing call,
    timer or instrument setting changes, and the state that results is the
    same whatever the glide flag, the duration and the start time. *)
Theorem delay_written_directly (v : num) (w : World) (doGlide : bool)
    (duration startTime : num) (output : OutputNode) (cb : option Callback) :
  let run (tag : ModuleTag) :=
    applyModuleParamChange Config rangeToIndex
      (mkEvent tag v doGlide duration) w startTime output cb in
  let fields (x : World) :=
    (delay_delay (delay (modules x)), delay_feedback (delay (modules x)),
     delay_cutoff (delay (modules x)), delay_offset (delay (modules x))) in
  let old := delay (modules w) in
  let rest (tag : ModuleTag) :=
    delayEnabled (delay (modules (run tag))) = delayEnabled old
    /\ panner_pan (modules (run tag)) = panner_pan (modules w)
    /\ filter (modules (run tag)) = filter (modules w)
    /\ instrument (run tag) = instrument w
    /\ instrumentEvents (run tag) = instrumentEvents w
    /\ routing (run tag) = routing w
    /\ timers (run tag) = timers w
    /\ (forall (doGlide' : bool) (duration' startTime' : num)
               (output' : OutputNode) (cb' : option Callback),
          applyModuleParamChange Config rangeToIndex
            (mkEvent tag v doGlide' duration') w startTime' output' cb'
          = run tag) in
  (fields (run DELAY_TIME)
     = (v / lit 100, delay_feedback old, delay_cutoff old, delay_offset old)
   /\ rest DELAY_TIME)
  /\ (fields (run DELAY_FEEDBACK)
        = (delay_delay old, v / lit 100, delay_cutoff old, delay_offset old)
      /\ rest DELAY_FEEDBACK)
  /\ (fields (run DELAY_CUTOFF)
        = (delay_delay old, delay_feedback old,
           v / lit 100 * MAX_DELAY_CUTOFF Config, delay_offset old)
      /\ rest DELAY_CUTOFF)
  /\ (fields (run DELAY_OFFSET)
        = (delay_delay old, delay_feedback old, delay_cutoff old,
           MIN_DELAY_OFFSET Config + v / lit 100)
      /\ rest DELAY_OFFSET).
Proof.
  cbv zeta. repeat split.
Qed.

(** The two enabling events, read back from the state: the flag, the rest
    of the module state, and the call the router received. *)
Lemma enabled_read_back (v : num) (doGlide : bool) (duration : num)
    (w : World) (startTime : num) (output : OutputNode)
    (cb : option Callback) :
  let filtered := applyModuleParamChange Config rangeToIndex
                    (mkEvent FILTER_ENABLED v doGlide duration) w startTime
                    output cb in
  let delayed := applyModuleParamChange Config rangeToIndex
                   (mkEvent DELAY_ENABLED v doGlide duration) w startTime
                   output cb in
  let routed (x : World) := fst (last (routing x) (modules w, output)) in
  (filterEnabled (filter (modules filtered)) = (v >=? lit 50)
   /\ routing filtered = routing w ++ [ (modules filtered, output) ]
   /\ filterEnabled (filter (routed filtered)) = (v >=? lit 50)
   /\ moduleControls (modules filtered) = moduleControls (modules w)
   /\ delay (modules filtered) = delay (modules w)
   /\ instrumentEvents filtered = instrumentEvents w
   /\ timers filtered = timers w)
  /\ (delayEnabled (delay (modules delayed)) = (v >=? lit 50)
      /\ routing delayed = routing w ++ [ (modules delayed, output) ]
      /\ delayEnabled (delay (routed delayed)) = (v >=? lit 50)
      /\ (delay_delay (delay (modules delayed)),
          delay_feedback (delay (modules delayed)),
          delay_cutoff (delay (modules delayed)),
          delay_offset (delay (modules delayed)))
         = (delay_delay (delay (modules w)), delay_feedback (delay (modules w)),
            delay_cutoff (delay (modules w)), delay_offset (delay (modules w)))
      /\ panner_pan (modules delayed) = panner_pan (modules w)
      /\ filter (modules delayed) = filter (modules w)
      /\ instrumentEvents delayed = instrumentEvents w
      /\ timers delayed = timers w).
Proof.
  cbv zeta.
  cbn [applyModuleParamChange mkEvent mp module value modules withModules
       withRouting routing applyRouting].
  unfold applyRouting. rewrite !last_last. repeat split.
Qed.

(** X13.  A filter-freq, filter-q or filter-lfo-speed event makes one
    scheduling without continuation state on its own control, as the calls
    read back from that control show: to [value/100] times the configured
    maximum, by cancel and set when it does not glide and by a ramp alone
    when it does.  The reading of the control, the three other controls of
    the filter, the enabled flag, the pan, the delay module, the voices, the
    routing calls and the timers are as they were. *)
Theorem filter_controls (v : num) (doGlide : bool) (duration : num)
    (w : World) (startTime : num) (output : OutputNode)
    (cb : option Callback) :
  let run (tag : ModuleTag) :=
    applyModuleParamChange Config rangeToIndex
      (mkEvent tag v doGlide duration) w startTime output cb in
  let f := filter (modules w) in
  let scheduled (control' control : AudioParam) (target : num) :=
    param_value control' = param_value control
    /\ automation control'
       = automation control ++ freshCalls target startTime duration doGlide in
  let rest (tag : ModuleTag) :=
    filterEnabled (filter (modules (run tag))) = filterEnabled f
    /\ lfoAmp_gain (filter (modules (run tag))) = lfoAmp_gain f
    /\ panner_pan (modules (run tag)) = panner_pan (modules w)
    /\ delay (modules (run tag)) = delay (modules w)
    /\ instrument (run tag) = instrument w
    /\ instrumentEvents (run tag) = instrumentEvents w
    /\ routing (run tag) = routing w
    /\ timers (run tag) = timers w in
  (scheduled (filter_frequency (filter (modules (run FILTER_FREQ))))
     (filter_frequency f) (v / lit 100 * MAX_FILTER_FREQ Config)
   /\ filter_Q (filter (modules (run FILTER_FREQ))) = filter_Q f
   /\ lfo_frequency (filter (modules (run FILTER_FREQ))) = lfo_frequency f
   /\ rest FILTER_FREQ)
  /\ (scheduled (filter_Q (filter (modules (run FILTER_Q))))
        (filter_Q f) (v / lit 100 * MAX_FILTER_Q Config)
      /\ filter_frequency (filter (modules (run FILTER_Q))) = filter_frequency f
      /\ lfo_frequency (filter (modules (run FILTER_Q))) = lfo_frequency f
      /\ rest FILTER_Q)
  /\ (scheduled (lfo_frequency (filter (modules (run FILTER_LFO_SPEED))))
        (lfo_frequency f) (v / lit 100 * MAX_FILTER_LFO_SPEED Config)
      /\ filter_frequency (filter (modules (run FILTER_LFO_SPEED)))
         = filter_frequency f
      /\ filter_Q (filter (modules (run FILTER_LFO_SPEED))) = filter_Q f
      /\ rest FILTER_LFO_SPEED).
Proof.
  cbv zeta.
  assert (E : forall (control : AudioParam) (target : num),
             automation
               (fst (scheduleParameterChange control target startTime duration
                       doGlide None))
             = automation control
               ++ freshCalls target startTime duration doGlide).
  { intros control target. rewrite scheduleParameterChange_calls.
    unfold freshCalls. destruct doGlide; reflexivity. }
  cbn [applyModuleParamChange applyFilter mkEvent mp module value glide seq
       mpLength modules withModules filter withFilter withFilterFrequency
       withFilterQ withLfoFrequency filter_frequency filter_Q lfo_frequency
       lfoAmp_gain filterEnabled].
  repeat split;
    first [ apply scheduleParameterChange_reading | apply E ].
Qed.

End WrittenState.

(** C4, as stated, fails on doubles: for an oscillator at 440 and a value
    of 50 the pitch applier schedules 660.1833333333334 going up and
    329.9083333333333 going down, where
    [baseFrequency * (1 + 1/1200) * (value/100)] gives 660.1833333333333
    and 329.90833333333336. *)
Lemma pitch_formula_on_doubles :
  let N := Binary64.number in
  let voice := @Build_Voice N (OscillatorNode (idle (lit 440))) (lit 440)
                 (idle (lit 1)) false in
  let scheduledBy (tag : ModuleTag) :=
    flat_map (fun x => match generator x with
                       | OscillatorNode control => targetsOf (automation control)
                       | _ => []
                       end)
      (applyPitchShift (mkEvent tag (lit 50) false (lit 1)) [voice] (lit 0)) in
  scheduledBy PITCH_UP = [ S754_finite false 5807034011711352 (-43) ]
  /\ spec_oscillatorTarget true (lit 440) (lit 50)
     = S754_finite false 5807034011711351 (-43)
  /\ scheduledBy PITCH_DOWN = [ S754_finite false 5803808777603208 (-44) ]
  /\ spec_oscillatorTarget false (lit 440) (lit 50)
     = S754_finite false 5803808777603209 (-44)
  /\ scheduledBy PITCH_UP <> [ spec_oscillatorTarget true (lit 440) (lit 50) ]
  /\ scheduledBy PITCH_DOWN <> [ spec_oscillatorTarget false (lit 440) (lit 50) ].
Proof.
  cbv zeta. repeat split; try (vm_compute; reflexivity);
    vm_compute; discriminate.
Qed.

(** C6, as the code has it.  In every number system, and so on doubles, a
    filter-lfo-depth event schedules the depth control, without
    continuation state, to [((value/100) * maximum depth) / 100] times the
    reading of the cutoff control at the call, computed in this order, and
    leaves that reading and the other controls alone.  So two events of one
    value met with different readings are each scheduled from their own
    reading: on doubles, with a maximum of 100 and a value of 50, readings
    of 880 and 440 give 440 and 220.  The targets need not differ: with a
    value of 1, readings of 880 and of the next double above it give the
    same target, and with a value of 0 every reading gives 0. *)
Theorem lfo_depth_scheduled :
  (forall (N : JsNumber) (Config : ConfigT)
          (rangeToIndex : list string -> num -> num) (v : num)
          (doGlide : bool) (duration : num) (w : World) (startTime : num)
          (output : OutputNode) (cb : option Callback),
      let after := applyModuleParamChange Config rangeToIndex
                     (mkEvent FILTER_LFO_DEPTH v doGlide duration) w startTime
                     output cb in
      let f := filter (modules w) in
      let target :=
        mul (div (mul (div v (lit 100)) (MAX_FILTER_LFO_DEPTH Config)) (lit 100))
            (param_value (filter_frequency f)) in
      automation (lfoAmp_gain (filter (modules after)))
        = automation (lfoAmp_gain f)
          ++ freshCalls target startTime duration doGlide
      /\ targetsOf (freshCalls target startTime duration doGlide) = [target]
      /\ param_value (lfoAmp_gain (filter (modules after)))
         = param_value (lfoAmp_gain f)
      /\ filter_frequency (filter (modules after)) = filter_frequency f
      /\ filter_Q (filter (modules after)) = filter_Q f
      /\ lfo_frequency (filter (modules after)) = lfo_frequency f
      /\ filterEnabled (filter (modules after)) = filterEnabled f)
  /\ (let N := Binary64.number in
      let depthAt (v cutoff : num) :=
        targetsOf (automation (lfoAmp_gain (filter
          (applyFilter Sample.config
             (mkEvent FILTER_LFO_DEPTH v false (lit 1))
             (Sample.modulesAt cutoff) (lit 0))))) in
      let above880 := S754_finite false 7740561859543041 (-43) in
      depthAt (lit 50) (lit 880) = [ lit 440 ]
      /\ depthAt (lit 50) (lit 440) = [ lit 220 ]
      /\ Binary64.eqb above880 (lit 880) = false
      /\ depthAt (lit 1) above880 = depthAt (lit 1) (lit 880)
      /\ depthAt (lit 0) (lit 880) = [ lit 0 ]
      /\ depthAt (lit 0) (lit 440) = [ lit 0 ]).
Proof.
  split.
  - intros N Config rangeToIndex v doGlide duration w startTime output cb.
    apply lfo_depth_read_back.
  - cbv zeta. repeat split; vm_compute; reflexivity.
Qed.

(** C6, as stated, fails on doubles.  At [value = 0] the same event met
    with two different cutoff readings sets the depth to the same target,
    zero.  And with a configured maximum of 75, a value of 5 and a cutoff
    reading of 880 the code schedules 33, where
    [(value/100) * (maximum/100) * cutoff] gives 33.00000000000001. *)
Lemma lfo_depth_same_at_zero :
  let N := Binary64.number in
  let depthWith (config : ConfigT) (v cutoff : num) :=
    targetsOf (automation (lfoAmp_gain (filter
      (applyFilter config (mkEvent FILTER_LFO_DEPTH v false (lit 1))
         (Sample.modulesAt cutoff) (lit 0))))) in
  let max75 : ConfigT :=
    {| MAX_FILTER_FREQ := lit 22050; MAX_FILTER_Q := lit 40;
       MAX_FILTER_LFO_SPEED := lit 25; MAX_FILTER_LFO_DEPTH := lit 75;
       MAX_DELAY_CUTOFF := lit 22050; MIN_DELAY_OFFSET := lit 0 |} in
  (Binary64.eqb (lit 880) (lit 440) = false
   /\ depthWith Sample.config (lit 0) (lit 880) = [ lit 0 ]
   /\ depthWith Sample.config (lit 0) (lit 440) = [ lit 0 ])
  /\ (depthWith max75 (lit 5) (lit 880) = [ lit 33 ]
      /\ spec_lfoDepthTarget (lit 75) (lit 880) (lit 5)
         = S754_finite false 4644337115725825 (-47)
      /\ depthWith max75 (lit 5) (lit 880)
         <> [ spec_lfoDepthTarget (lit 75) (lit 880) (lit 5) ]).
Proof.
  cbv zeta. repeat split; try (vm_compute; reflexivity);
    vm_compute; discriminate.
Qed.

(** C10.  For a filter-enabled and for a delay-enabled event the flag read
    from the module state afterwards is the outcome of [value >= 50], the
    rest of the module state is as it was, and the router is called after
    the write, once, with a module state in which the flag reads the same.
    On doubles 50 and 100 enable, 49 and 0 disable, and of the values
    [fromHex] reads from a byte exactly those of 128 and above enable. *)
Theorem enabled_threshold :
  (forall (N : JsNumber) (Config : ConfigT)
          (rangeToIndex : list string -> num -> num) (v : num)
          (doGlide : bool) (duration : num) (w : World) (startTime : num)
          (output : OutputNode) (cb : option Callback),
      let filtered := applyModuleParamChange Config rangeToIndex
                        (mkEvent FILTER_ENABLED v doGlide duration) w
                        startTime output cb in
      let delayed := applyModuleParamChange Config rangeToIndex
                       (mkEvent DELAY_ENABLED v doGlide duration) w
                       startTime output cb in
      let routed (x : World) := fst (last (routing x) (modules w, output)) in
      (filterEnabled (filter (modules filtered)) = geb v (lit 50)
       /\ routing filtered = routing w ++ [ (modules filtered, output) ]
       /\ filterEnabled (filter (routed filtered)) = geb v (lit 50)
       /\ moduleControls (modules filtered) = moduleControls (modules w)
       /\ delay (modules filtered) = delay (modules w)
       /\ instrumentEvents filtered = instrumentEvents w
       /\ timers filtered = timers w)
      /\ (delayEnabled (delay (modules delayed)) = geb v (lit 50)
          /\ routing delayed = routing w ++ [ (modules delayed, output) ]
          /\ delayEnabled (delay (routed delayed)) = geb v (lit 50)
          /\ (delay_delay (delay (modules delayed)),
              delay_feedback (delay (modules delayed)),
              delay_cutoff (delay (modules delayed)),
              delay_offset (delay (modules delayed)))
             = (delay_delay (delay (modules w)),
                delay_feedback (delay (modules w)),
                delay_cutoff (delay (modules w)),
                delay_offset (delay (modules w)))
          /\ panner_pan (modules delayed) = panner_pan (modules w)
          /\ filter (modules delayed) = filter (modules w)
          /\ instrumentEvents delayed = instrumentEvents w
          /\ timers delayed = timers w))
  /\ (geb (JsNumber := Binary64.number) (lit 50) (lit 50) = true
      /\ geb (JsNumber := Binary64.number) (lit 100) (lit 50) = true
      /\ geb (JsNumber := Binary64.number) (lit 49) (lit 50) = false
      /\ geb (JsNumber := Binary64.number) (lit 0) (lit 50) = false
      /\ geb (JsNumber := Binary64.number) S754_nan (lit 50) = false)
  /\ forallb byteEnables bytes = true.
Proof.
  split; [ | split ].
  - intros N Config rangeToIndex v doGlide duration w startTime output cb.
    apply enabled_read_back.
  - repeat split.
  - vm_compute. reflexivity.
Qed.
